(** * bloom: the logo asset generator [assets/logo/gen_images.py]

    A shallow embedding of the script that turns [bloom.svg] into the icon
    bundle, the two PNGs and the banner, together with the properties its
    specification states about it.

    Layout of the development:
    - [Py]: the fragment of Python's numeric semantics the script relies on
      (exceptions, [int], binary64 [float], [round], [int()], [/], [*]);
    - [Svg]: the data the script reads from a parsed vector document;
    - [AggPath], [Pil], [AggDraw]: the drawing requests it sends to the
      rasteriser and to the imaging library, kept symbolic;
    - [Gen]: the script itself, function by function;
    - [Binary64] and [Sample]: the notions the statements use, and a small
      document, font and file system to run the script on;
    - facts about binary64 rounding, then the properties, by component. *)

From Stdlib Require Import ZArith List String Ascii Bool Lia.
From Stdlib Require Import Floats.SpecFloat.
From Stdlib Require DecimalString.
Import ListNotations.

#[local] Open Scope Z_scope.

(* ===================================================================== *)
(** * Python values and exceptions *)
(* ===================================================================== *)

Module Py.

(** The exceptions the script can meet in its own expressions.  Only
    [RuntimeError] is raised by a [raise] statement of the script. *)
Inductive exn : Type :=
| ZeroDivisionError
| OverflowError
| ValueError
| IndexError
| RuntimeError (msg : string).

Inductive result (A : Type) : Type :=
| Ok (a : A)
| Raise (e : exn).
#[global] Arguments Ok {A} a.
#[global] Arguments Raise {A} e.

Definition bind {A B : Type} (c : result A) (k : A -> result B) : result B :=
  match c with
  | Ok a => k a
  | Raise e => Raise e
  end.

Definition is_ok {A : Type} (c : result A) : bool :=
  match c with Ok _ => true | Raise _ => false end.

(** ** binary64 *)

(** A Python [float] is an IEEE-754 binary64; the standard library's
    executable specification of it is used as is. *)
Definition float : Type := spec_float.
Definition prec : Z := 53.
Definition emax : Z := 1024.

Definition fadd : float -> float -> float := SFadd prec emax.
Definition fsub : float -> float -> float := SFsub prec emax.
Definition fmul : float -> float -> float := SFmul prec emax.
Definition fdiv : float -> float -> float := SFdiv prec emax.

Definition is_zero (x : float) : bool :=
  match x with S754_zero _ => true | _ => false end.

(** [float(n)] for an [int]: correctly rounded (ties to even), and
    [OverflowError] when the rounded value leaves the binary64 range. *)
Definition int_to_float (n : Z) : result float :=
  match binary_normalize prec emax n 0 false with
  | S754_infinity _ => Raise OverflowError
  | x => Ok x
  end.

(** Nearest integer to [a / b] for [0 <= a], [0 < b], ties to even. *)
Definition round_half_even_div (a b : Z) : Z :=
  let q := a / b in
  match 2 * (a mod b) ?= b with
  | Lt => q
  | Gt => q + 1
  | Eq => if Z.even q then q else q + 1
  end.

(** Nearest integer to [m * 2^e], ties to even. *)
Definition round_half_even (m e : Z) : Z :=
  if 0 <=? e then m * 2 ^ e
  else round_half_even_div m (2 ^ (- e)).

(** [round(x)] with one argument: [float.__round__], to the nearest [int],
    ties to even. *)
Definition round (x : float) : result Z :=
  match x with
  | S754_zero _ => Ok 0
  | S754_infinity _ => Raise OverflowError
  | S754_nan => Raise ValueError
  | S754_finite s m e => Ok (cond_Zopp s (round_half_even (Zpos m) e))
  end.

(** [int(x)]: truncation towards zero. *)
Definition trunc (x : float) : result Z :=
  match x with
  | S754_zero _ => Ok 0
  | S754_infinity _ => Raise OverflowError
  | S754_nan => Raise ValueError
  | S754_finite s m e =>
      Ok (cond_Zopp s (if 0 <=? e then Zpos m * 2 ^ e else Zpos m / 2 ^ (- e)))
  end.

(** ** Dynamically typed numbers *)

Inductive number : Type :=
| Int (n : Z)
| Float (x : float).

Definition to_float (a : number) : result float :=
  match a with
  | Int n => int_to_float n
  | Float x => Ok x
  end.

(** [bool(a)] for a number: false exactly for zero. *)
Definition truthy (a : number) : bool :=
  match a with
  | Int n => negb (n =? 0)
  | Float x => negb (is_zero x)
  end.

(** [a / b] on two [int]s: the exact quotient, correctly rounded once. *)
Definition int_truediv (a b : Z) : result float :=
  if b =? 0 then Raise ZeroDivisionError
  else
    match a with
    | Z0 => Ok (S754_zero (b <? 0))
    | _ =>
        match fdiv (S754_finite (a <? 0) (Z.to_pos (Z.abs a)) 0)
                   (S754_finite (b <? 0) (Z.to_pos (Z.abs b)) 0) with
        | S754_infinity _ => Raise OverflowError
        | q => Ok q
        end
    end.

Definition float_truediv (x y : float) : result float :=
  if is_zero y then Raise ZeroDivisionError else Ok (fdiv x y).

(** [a / b] *)
Definition truediv (a b : number) : result float :=
  match a, b with
  | Int m, Int n => int_truediv m n
  | _, _ =>
      bind (to_float a) (fun x =>
      bind (to_float b) (fun y =>
      float_truediv x y))
  end.

(** [a * b] where at least one side is a [float] *)
Definition mul_float (a b : number) : result float :=
  bind (to_float a) (fun x =>
  bind (to_float b) (fun y =>
  Ok (fmul x y))).

(** ** [str] and [repr] *)

(** [str(n)] for an [int] *)
Definition str_int (n : Z) : string :=
  DecimalString.NilZero.string_of_int (Z.to_int n).

Definition hex_digit (n : nat) : ascii :=
  ascii_of_nat (if Nat.ltb n 10 then 48 + n else 87 + n)%nat.

Definition mem_ascii (c : ascii) (s : string) : bool :=
  existsb (Ascii.eqb c) (list_ascii_of_string s).

(** [repr(s)] for a [str] of ASCII characters: single quotes unless the text
    holds a single quote and no double quote; backslash, the chosen quote and
    the control characters escaped. *)
Definition repr_str (s : string) : string :=
  let dq := ascii_of_nat 34 in
  let sq := ascii_of_nat 39 in
  let bs := ascii_of_nat 92 in
  let quote := if mem_ascii sq s && negb (mem_ascii dq s) then dq else sq in
  let esc (c : ascii) : string :=
    let n := nat_of_ascii c in
    if Ascii.eqb c bs || Ascii.eqb c quote then String bs (String c EmptyString)
    else if Nat.eqb n 10 then String bs "n"
    else if Nat.eqb n 13 then String bs "r"
    else if Nat.eqb n 9 then String bs "t"
    else if Nat.ltb n 32 || Nat.eqb n 127 then
      String bs (String "x" (String (hex_digit (n / 16))
                                    (String (hex_digit (n mod 16)) EmptyString)))
    else String c EmptyString in
  (String quote (String.concat "" (map esc (list_ascii_of_string s)))
     ++ String quote EmptyString)%string.

(** [str(l)] for a [list] of [str] *)
Definition str_list (l : list string) : string :=
  ("[" ++ String.concat ", " (map repr_str l) ++ "]")%string.

End Py.

Export Py.

Declare Scope py_scope.
Delimit Scope py_scope with py.
Notation "x <- c ;; k" := (Py.bind c (fun x => k))
  (at level 61, c at next level, right associativity) : py_scope.
Notation "' pat <- c ;; k" := (Py.bind c (fun x => match x with pat => k end))
  (at level 61, pat pattern, c at next level, right associativity) : py_scope.

Declare Scope f64_scope.
Delimit Scope f64_scope with f64.
Infix "+" := Py.fadd : f64_scope.
Infix "-" := Py.fsub : f64_scope.
Infix "*" := Py.fmul : f64_scope.

(* ===================================================================== *)
(** * The parsed vector document ([svgelements]) *)
(* ===================================================================== *)

(** Only what the script reads from the library's objects is represented:
    the attributes of a segment, of a colour, of a shape and of the document. *)
Module Svg.

Record Point : Type := { x : float; y : float }.

(** The segment classes of a path.  [Arc] carries the geometry that makes it
    a curve (centre, the two conjugate radii points, sweep angle). *)
Inductive Segment : Type :=
| Move (end_ : Point)
| Line (start end_ : Point)
| CubicBezier (start control1 control2 end_ : Point)
| QuadraticBezier (start control end_ : Point)
| Arc (start end_ center prx pry : Point) (sweep : float)
| Close (start end_ : Point).

(** A colour is the colour "none" or has channels and an opacity. *)
Inductive Color : Type :=
| ColorNone
| ColorValue (red green blue : Z) (opacity : float).

(** [c == Color("none")] *)
Definition is_none (c : Color) : bool :=
  match c with ColorNone => true | ColorValue _ _ _ _ => false end.

Record Shape : Type := {
  fill : option Color;                 (* [elem.fill], possibly [None] *)
  segments : list Segment              (* [elem.segments(transformed=True)] *)
}.

(** What [svg.elements()] yields: shapes, and everything else (the document
    node itself, groups, text, images). *)
Inductive Element : Type :=
| IsShape (s : Shape)
| NotShape.

Record SVG : Type := {
  width : option number;               (* [svg.width], possibly [None] *)
  elements : list Element
}.

End Svg.

(* ===================================================================== *)
(** * Drawing requests: [aggdraw] paths, [PIL] images, [aggdraw] canvases *)
(* ===================================================================== *)

Module AggPath.

(** One call on an [aggdraw.Path] object. *)
Inductive Cmd : Type :=
| moveto (x y : float)
| lineto (x y : float)
| curveto (x1 y1 x2 y2 x y : float)
| close.

(** An [aggdraw.Path]: the calls made on it, oldest first. *)
Definition Path : Type := list Cmd.

Definition call (p : Path) (c : Cmd) : Path := (p ++ [c])%list.

Record Brush : Type := { color : Z * Z * Z; opacity : Z }.
Record Pen : Type := { pen_color : Z * Z * Z; pen_width : Z }.

(** One [canvas.path(path, pen, brush)] request; the outline is stroked only
    when a pen is given, the interior filled only when a brush is given. *)
Record Fill : Type := { path : Path; pen : option Pen; brush : option Brush }.

End AggPath.

Module Pil.

Definition RGBA : Type := (Z * Z * Z * Z)%type.

Inductive Resampling : Type :=
| NEAREST | BOX | BILINEAR | HAMMING | BICUBIC | LANCZOS.

(** [ImageFont.truetype(path, size)] *)
Record FreeTypeFont : Type := { font_file : string; font_size : Z }.

#[local] Set Warnings "-register-all".

(** An image is known by how it was made.  The methods that mutate an image
    in place ([paste], the [ImageDraw] calls, an [aggdraw] flush) are the
    constructors over the image they mutate. *)
Inductive Image : Type :=
| new (mode : string) (size : Z * Z) (color : RGBA)
| flushed (im : Image) (requests : list AggPath.Fill)
| rounded_rectangle (im : Image) (xy : Z * Z * Z * Z) (radius : Z) (fill : RGBA)
| resize (im : Image) (size : Z * Z) (resample : Resampling)
| paste (im : Image) (src : Image) (box : Z * Z) (mask : option Image)
| text (im : Image) (xy : Z * Z) (txt : string) (font : FreeTypeFont) (fill : RGBA).

(** [im.size]: set at creation and by [resize], kept by everything else. *)
Fixpoint size (im : Image) : Z * Z :=
  match im with
  | new _ sz _ => sz
  | flushed im' _ => size im'
  | rounded_rectangle im' _ _ _ => size im'
  | resize _ sz _ => sz
  | paste im' _ _ _ => size im'
  | text im' _ _ _ _ => size im'
  end.

End Pil.

Module AggDraw.

(** [aggdraw.Draw(img)]: the image drawn on and the requests not yet flushed. *)
Record Canvas : Type := { image : Pil.Image; pending : list AggPath.Fill }.

Definition Draw (img : Pil.Image) : Canvas :=
  {| image := img; pending := [] |}.

Definition path (c : Canvas) (p : AggPath.Path) (b : AggPath.Brush) : Canvas :=
  {| image := image c;
     pending := (pending c ++
                 [{| AggPath.path := p; AggPath.pen := None;
                     AggPath.brush := Some b |}])%list |}.

(** [canvas.flush()] writes the pending requests into the image. *)
Definition flush (c : Canvas) : Pil.Image :=
  Pil.flushed (image c) (pending c).

End AggDraw.

(* ===================================================================== *)
(** * The script *)
(* ===================================================================== *)

Module Gen.

Import Pil.

(** ** Constants *)

Definition ICO_SIZES : list Z := [256; 128; 64; 48; 32; 16].

Definition BLUE : Z * Z * Z := (0, 132, 190).

(** The literal [0.1014]: the binary64 nearest to 1014/10000. *)
Definition CORNER_RADIUS_RATIO : float := S754_finite false 7306640035445893 (-56).

(** The literal [0.78]: the binary64 nearest to 78/100. *)
Definition ICON_GLYPH_RATIO : float := S754_finite false 7025615418697974 (-53).

Definition BANNER_LOGO_H : Z := 72.
Definition BANNER_FONT_SIZE : Z := 72.
Definition BANNER_INNER_PAD : Z := 16.
Definition BANNER_FONT_PATHS : list string :=
  [ "C:/Windows/Fonts/segoeuib.ttf";
    "/usr/share/fonts/truetype/dejavu/DejaVuSans-Bold.ttf";
    "/System/Library/Fonts/Helvetica.ttc" ]%string.

(** The constant expression [2/3] *)
Definition two_thirds : float :=
  fdiv (S754_finite false 2 0) (S754_finite false 3 0).

(** [t + (a,)] on the colour triple *)
Definition with_alpha (c : Z * Z * Z) (a : Z) : RGBA :=
  let '(r, g, b) := c in (r, g, b, a).

(** ** [color_to_rgba] *)

Definition color_to_rgba (c : option Svg.Color) : result (option RGBA) :=
  match c with
  | None => Ok None
  | Some Svg.ColorNone => Ok None
  | Some (Svg.ColorValue red green blue opacity) =>
      (o <- mul_float (Float opacity) (Int 255) ;;
       a <- trunc o ;;
       Ok (Some (red, green, blue, a)))%py
  end.

(** ** [shape_to_aggpath] *)

(** The body of the loop: the call made on the path for one segment. *)
Definition segment_call (scale : float) (seg : Svg.Segment) : AggPath.Cmd :=
  let X (p : Svg.Point) := (Svg.x p * scale)%f64 in
  let Y (p : Svg.Point) := (Svg.y p * scale)%f64 in
  match seg with
  | Svg.Move e => AggPath.moveto (X e) (Y e)
  | Svg.Line _ e => AggPath.lineto (X e) (Y e)
  | Svg.CubicBezier _ c1 c2 e =>
      AggPath.curveto (X c1) (Y c1) (X c2) (Y c2) (X e) (Y e)
  | Svg.QuadraticBezier s c e =>
      let '(cx, cy) := (X c, Y c) in
      let '(ex, ey) := (X e, Y e) in
      let '(sx, sy) := (X s, Y s) in
      AggPath.curveto
        (sx + two_thirds * (cx - sx))%f64 (sy + two_thirds * (cy - sy))%f64
        (ex + two_thirds * (cx - ex))%f64 (ey + two_thirds * (cy - ey))%f64
        ex ey
  | Svg.Arc _ e _ _ _ _ => AggPath.lineto (X e) (Y e)
  | Svg.Close _ _ => AggPath.close
  end.

(** [p = aggdraw.Path()], then one call per segment of
    [shape.segments(transformed=True)]. *)
Definition shape_to_aggpath (shape : Svg.Shape) (scale : float) : AggPath.Path :=
  fold_left (fun p seg => AggPath.call p (segment_call scale seg))
            (Svg.segments shape) [].

(** ** [blue_rounded_rect] *)

(** [min(w, h) * CORNER_RADIUS_RATIO] converts the [int] to a [float]; the
    product is rounded to an [int] again. *)
Definition blue_rounded_rect (w h : Z) : result Image :=
  (x <- mul_float (Int (Z.min w h)) (Float CORNER_RADIUS_RATIO) ;;
   r <- round x ;;
   let radius := Z.max 1 r in
   let img := new "RGBA" (w, h) (0, 0, 0, 0) in
   Ok (rounded_rectangle img (0, 0, w - 1, h - 1) radius (with_alpha BLUE 255)))%py.

Section Environment.

(** What the run depends on outside the script: the directory of the script,
    the file system, the SVG parser and the font metrics. *)
Variable DIR : string.
Variable read_text : string -> string.
Variable path_exists : string -> bool.
Variable parse : string -> Z -> Svg.SVG.   (* [se.SVG.parse(.., width=n, height=n)] *)
Variable textbbox : Z * Z -> string -> FreeTypeFont -> Z * Z * Z * Z.

(** ** [render_svg] *)

(** The body of the loop over [svg.elements()]. *)
Definition draw_element (scale : float) (canvas : AggDraw.Canvas)
    (elem : Svg.Element) : result AggDraw.Canvas :=
  match elem with
  | Svg.NotShape => Ok canvas
  | Svg.IsShape shape =>
      (fill <- color_to_rgba (Svg.fill shape) ;;
       match fill with
       | None => Ok canvas
       | Some (r, g, b, a) =>
           Ok (AggDraw.path canvas (shape_to_aggpath shape scale)
                 {| AggPath.color := (r, g, b); AggPath.opacity := a |})
       end)%py
  end.

Fixpoint draw_elements (scale : float) (canvas : AggDraw.Canvas)
    (elems : list Svg.Element) : result AggDraw.Canvas :=
  match elems with
  | [] => Ok canvas
  | elem :: rest =>
      (canvas' <- draw_element scale canvas elem ;;
       draw_elements scale canvas' rest)%py
  end.

Definition render_svg (svg_content : string) (size : Z) : result Image :=
  let svg := parse svg_content size in
  (vw <- match Svg.width svg with
         | Some w => if truthy w then (x <- to_float w ;; Ok (Float x))
                     else Ok (Int size)
         | None => Ok (Int size)
         end ;;
   scale <- truediv (Int size) vw ;;
   let img := new "RGBA" (size, size) (0, 0, 0, 0) in
   let canvas := AggDraw.Draw img in
   canvas <- draw_elements scale canvas (Svg.elements svg) ;;
   Ok (AggDraw.flush canvas))%py.

(** ** [render_icon] *)

(** The expression [round(size * ICON_GLYPH_RATIO)]. *)
Definition glyph_size_of (size : Z) : result Z :=
  (x <- mul_float (Int size) (Float ICON_GLYPH_RATIO) ;; round x)%py.

Definition render_icon (svg_content : string) (size : Z) : result Image :=
  (bg <- blue_rounded_rect size size ;;
   glyph_size <- glyph_size_of size ;;
   hi <- render_svg svg_content (glyph_size * 4) ;;
   let glyph := resize hi (glyph_size, glyph_size) LANCZOS in
   let offset := (size - glyph_size) / 2 in
   Ok (paste bg glyph (offset, offset) (Some glyph)))%py.

(** ** [render_banner] *)

(** The one-pixel image made to measure the text serves no other purpose:
    the measure is [textbbox]. *)
Definition render_banner (svg_content : string) (font : FreeTypeFont)
    : result Image :=
  let SCALE := 4 in
  (hi <- render_svg svg_content (BANNER_LOGO_H * SCALE) ;;
   let glyph := resize hi (BANNER_LOGO_H, BANNER_LOGO_H) LANCZOS in
   let '(bbox0, bbox1, bbox2, bbox3) := textbbox (0, 0) "loom" font in
   let '(tw, th) := (bbox2 - bbox0, bbox3 - bbox1) in
   let W := BANNER_LOGO_H + tw + BANNER_INNER_PAD * 2 in
   let H := Z.max BANNER_LOGO_H th + BANNER_INNER_PAD * 2 in
   hi_banner <- blue_rounded_rect (W * SCALE) (H * SCALE) ;;
   let banner := resize hi_banner (W, H) LANCZOS in
   let banner := paste banner glyph
                   (BANNER_INNER_PAD, (H - BANNER_LOGO_H) / 2) (Some glyph) in
   let ty := (H - BANNER_INNER_PAD) - th - bbox1 in
   Ok (text banner (BANNER_INNER_PAD + BANNER_LOGO_H, ty) "loom" font
         (255, 255, 255, 255)))%py.

(** ** The entry point *)

(** What a run leaves behind: the files saved and the lines printed, in the
    order they happen.  A [save] records the image, the format and the
    keyword arguments given. *)
Inductive Event : Type :=
| Saved (im : Image) (path : string) (format : string)
        (append_images : list Image) (optimize : bool)
| Printed (line : string).

(** A statement of the entry point: it extends the trace and ends normally or
    by an exception; what was done before an exception stays done. *)
Definition io (A : Type) : Type := list Event -> list Event * result A.

Definition io_ret {A : Type} (a : A) : io A := fun tr => (tr, Ok a).

Definition io_bind {A B : Type} (c : io A) (k : A -> io B) : io B :=
  fun tr =>
    match c tr with
    | (tr', Ok a) => k a tr'
    | (tr', Raise e) => (tr', Raise e)
    end.

Definition eval {A : Type} (c : result A) : io A := fun tr => (tr, c).

Definition emit (e : Event) : io unit := fun tr => ((tr ++ [e])%list, Ok tt).

Definition save (im : Image) (path format : string)
    (append_images : list Image) (optimize : bool) : io unit :=
  emit (Saved im path format append_images optimize).

Definition print (line : string) : io unit := emit (Printed line).

(** [for x in xs: body] *)
Fixpoint for_each {A : Type} (xs : list A) (body : A -> io unit) : io unit :=
  match xs with
  | [] => io_ret tt
  | x :: rest => io_bind (body x) (fun _ => for_each rest body)
  end.

(** [[f(x) for x in xs]] *)
Fixpoint comprehension {A B : Type} (f : A -> result B) (xs : list A)
    : result (list B) :=
  match xs with
  | [] => Ok []
  | x :: rest =>
      (y <- f x ;; ys <- comprehension f rest ;; Ok (y :: ys))%py
  end.

(** [DIR / name] *)
Definition in_dir (name : string) : string := (DIR ++ "/" ++ name)%string.

Definition SVG_PATH : string := in_dir "bloom.svg".
Definition ICO_PATH : string := in_dir "bloom.ico".

(** [next((p for p in paths if Path(p).exists()), None)] *)
Definition first_existing (paths : list string) : option string :=
  find path_exists paths.

Definition font_error : exn :=
  RuntimeError ("No suitable font found. Tried: " ++ str_list BANNER_FONT_PATHS).

Declare Scope io_scope.
Delimit Scope io_scope with io.
#[local] Notation "x <- c ;; k" := (io_bind c (fun x => k))
  (at level 61, c at next level, right associativity) : io_scope.
#[local] Notation "c ;; k" := (io_bind c (fun _ => k))
  (at level 61, right associativity) : io_scope.

Definition write_ico (svg_content : string) : io unit :=
  (images <- eval (comprehension (render_icon svg_content) ICO_SIZES) ;;
   match images with
   | [] => eval (Raise IndexError)
   | first :: others => save first ICO_PATH "ICO" others false
   end ;;
   print ("Written " ++ ICO_PATH))%io.

Definition write_pngs (svg_content : string) : io unit :=
  for_each [32; 64] (fun size =>
    let path := in_dir ("bloom" ++ str_int size ++ ".png") in
    (icon <- eval (render_icon svg_content (size * 4)) ;;
     save (resize icon (size, size) LANCZOS) path "PNG" [] true ;;
     print ("Written " ++ path))%io).

Definition write_banner (svg_content : string) : io unit :=
  let font_path := first_existing BANNER_FONT_PATHS in
  match font_path with
  | None => eval (Raise font_error)
  | Some font_path =>
      let font := {| font_file := font_path; font_size := BANNER_FONT_SIZE |} in
      let banner_path := in_dir "banner.png" in
      (banner <- eval (render_banner svg_content font) ;;
       save banner banner_path "PNG" [] true ;;
       print ("Written " ++ banner_path))%io
  end.

Definition main : io unit :=
  let svg_content := read_text SVG_PATH in
  (write_ico svg_content ;;
   write_pngs svg_content ;;
   write_banner svg_content)%io.

End Environment.

End Gen.

(* ===================================================================== *)
(** * Definitions used by the statements *)
(* ===================================================================== *)

Module Binary64.

(** After [k] one-bit right shifts of [m0]: the quotient by [2^k], and the
    round and sticky flags locate the remainder with respect to half of
    [2^k]. *)
Definition shifted (m0 : Z) (k : Z) (mrs : shr_record) : Prop :=
  shr_m mrs = m0 / 2 ^ k /\
  exists t, 0 <= 2 * t < 2 ^ k /\
    2 * (m0 mod 2 ^ k) = (if shr_r mrs then 2 ^ k else 0) + 2 * t /\
    shr_s mrs = negb (t =? 0).

(** A mantissa rounded up to [2^53] is renormalised. *)
Definition carry (M1 e : Z) : Z * Z :=
  if M1 =? 2 ^ 53 then (2 ^ 52, e + 1) else (M1, e).

(** The normal binary64 with mantissa [F] and exponent [ef] stands for the
    integer [n]: exactly when [ef <= 0], to half a unit in the last place
    otherwise. *)
Definition approx (n F ef : Z) : Prop :=
  2 ^ 52 <= F < 2 ^ 53 /\ -52 <= ef <= 971 /\
  ((ef <= 0 /\ F = n * 2 ^ (- ef)) \/
   (0 < ef /\ 2 * n - 2 ^ ef <= 2 * (F * 2 ^ ef) <= 2 * n + 2 ^ ef)).

(** The least positive [int] whose conversion to [float] overflows. *)
Definition int_bound : Z := 2 ^ 1024 - 2 ^ 970.

End Binary64.

(** Case analysis on how [round_half_even_div a b] rounds. *)
Ltac rhe_cases a b Hb :=
  unfold round_half_even_div;
  pose proof (Z.div_mod a b ltac:(lia));
  pose proof (Z.mod_pos_bound a b Hb);
  destruct (Z.compare_spec (2 * (a mod b)) b); [destruct (Z.even (a / b))| |].

(** [needle in hay] on strings *)
Fixpoint is_substring (needle hay : string) : bool :=
  String.prefix needle hay ||
  match hay with
  | EmptyString => false
  | String _ rest => is_substring needle rest
  end.

(** The requests on a canvas that stroke an outline. *)
Definition stroked (c : AggDraw.Canvas) : list AggPath.Fill :=
  filter (fun r => match AggPath.pen r with Some _ => true | None => false end)
         (AggDraw.pending c).

(** A computation of the script that does not end by [RuntimeError]. *)
Definition no_runtime_error {A : Type} (c : result A) : Prop :=
  match c with
  | Raise (RuntimeError _) => False
  | _ => True
  end.



(** ** A sample environment

    A one-shape document (a white triangle with one quadratic edge, followed
    by an unfilled outline), a font whose label measures 163 x 53 pixels with
    a vertical offset of 17, and a file system on which only the last font
    candidate exists. *)
Module Sample.

Definition one : float := S754_finite false 4503599627370496 (-52).

Definition pt (px py : Z) : Svg.Point :=
  {| Svg.x := binary_normalize Py.prec Py.emax px 0 false;
     Svg.y := binary_normalize Py.prec Py.emax py 0 false |}.

Definition triangle : Svg.Shape :=
  {| Svg.fill := Some (Svg.ColorValue 255 255 255 one);
     Svg.segments :=
       [ Svg.Move (pt 10 10);
         Svg.Line (pt 10 10) (pt 90 10);
         Svg.QuadraticBezier (pt 90 10) (pt 90 90) (pt 10 90);
         Svg.Close (pt 10 90) (pt 10 10) ] |}.

Definition outline : Svg.Shape :=
  {| Svg.fill := Some Svg.ColorNone;
     Svg.segments := [ Svg.Move (pt 0 0); Svg.Line (pt 0 0) (pt 100 100) ] |}.

Definition parse (_ : string) (size : Z) : Svg.SVG :=
  {| Svg.width := Some (Float (binary_normalize Py.prec Py.emax 100 0 false));
     Svg.elements := [ Svg.NotShape; Svg.IsShape triangle; Svg.IsShape outline ] |}.

Definition textbbox (_ : Z * Z) (_ : string) (_ : Pil.FreeTypeFont)
    : Z * Z * Z * Z := (0, 17, 163, 70).

Definition DIR : string := "assets/logo".
Definition read_text (_ : string) : string := "<svg/>".

Definition only_last (p : string) : bool :=
  String.eqb p "/System/Library/Fonts/Helvetica.ttc".
Definition no_font (_ : string) : bool := false.

End Sample.

(** ** Notions used by the further properties *)

(** The point at which a call on a path leaves the pen. *)
Definition call_end (c : AggPath.Cmd) : option (float * float) :=
  match c with
  | AggPath.moveto x y => Some (x, y)
  | AggPath.lineto x y => Some (x, y)
  | AggPath.curveto _ _ _ _ x y => Some (x, y)
  | AggPath.close => None
  end.

(** The scaled end point of a segment that has one to draw to. *)
Definition segment_end (scale : float) (seg : Svg.Segment)
    : option (float * float) :=
  let at_ (p : Svg.Point) := Some (Svg.x p * scale, Svg.y p * scale)%f64 in
  match seg with
  | Svg.Move e => at_ e
  | Svg.Line _ e => at_ e
  | Svg.CubicBezier _ _ _ e => at_ e
  | Svg.QuadraticBezier _ _ e => at_ e
  | Svg.Arc _ e _ _ _ _ => at_ e
  | Svg.Close _ _ => None
  end.

(** The shapes of a document that have a colour to be filled with, in
    document order, each with the three channels of that colour. *)
Fixpoint layers (elems : list Svg.Element) : list (Svg.Shape * (Z * Z * Z)) :=
  match elems with
  | [] => []
  | Svg.IsShape shape :: rest =>
      match Svg.fill shape with
      | Some (Svg.ColorValue red green blue _) =>
          (shape, (red, green, blue)) :: layers rest
      | _ => layers rest
      end
  | Svg.NotShape :: rest => layers rest
  end.

(** What a request of the rasteriser says, but for the alpha of its brush. *)
Definition request_summary (r : AggPath.Fill)
    : AggPath.Path * option AggPath.Pen * option (Z * Z * Z) :=
  (AggPath.path r, AggPath.pen r, option_map AggPath.color (AggPath.brush r)).

(** [not svg.width] *)
Definition no_width (svg : Svg.SVG) : bool :=
  match Svg.width svg with
  | Some w => negb (truthy w)
  | None => true
  end.

(** The float 1.0 *)
Definition float_one : float := S754_finite false 4503599627370496 (-52).

(** The float 255.0 *)
Definition float_255 : float := S754_finite false 8972014882652160 (-45).

(** The integers [lo], [lo + 1], ..., [lo + n - 1]. *)
Fixpoint Zrange (lo : Z) (n : nat) : list Z :=
  match n with
  | O => []
  | S n' => lo :: Zrange (lo + 1) n'
  end.
(** An opacity that is zero or a normal float in (0, 1]. *)
Definition unit_opacity (x : float) : Prop :=
  match x with
  | S754_zero _ => True
  | S754_finite false mx ex =>
      2 ^ 52 <= Zpos mx < 2 ^ 53 /\ -1074 <= ex /\ Zpos mx <= 2 ^ (- ex)
  | _ => False
  end.

(** The alpha that [color_to_rgba] gives to the opacity [a / 255.0]. *)
Definition alpha_of_level (a : Z) : result (option Z) :=
  bind (truediv (Int a) (Float float_255)) (fun o =>
  bind (Gen.color_to_rgba (Some (Svg.ColorValue 0 0 0 o))) (fun c =>
  Ok (option_map (fun '(_, _, _, alpha) => alpha) c))).
(** ** Two more sample documents: one without a width, one whose only shape
    has an opacity that is not a number. *)
Module Edge.

Definition no_width_parse (_ : string) (_ : Z) : Svg.SVG :=
  {| Svg.width := None;
     Svg.elements := [ Svg.IsShape Sample.triangle; Svg.NotShape ] |}.

Definition nan_parse (_ : string) (_ : Z) : Svg.SVG :=
  {| Svg.width := None;
     Svg.elements :=
       [ Svg.IsShape {| Svg.fill := Some (Svg.ColorValue 0 0 0 S754_nan);
                        Svg.segments := [] |} ] |}.

End Edge.

(** ** The sides of an image

    The image constructors of [Pil] stand for calls that return.  The
    imaging library takes the sides of an image as C [int]s: it refuses a
    negative side and a side from [2^31] on, and it draws a rectangle from
    (0, 0) to (w-1, h-1) only when neither side is zero.  The statements that
    an image is returned are therefore made for sides from one pixel up to
    this bound. *)
Definition side_bound : Z := 2 ^ 31.

(** ** The ICO writer of the imaging library

    Modelled from the imaging library's documentation of its ICO format,
    since the writer is not part of the script: a save without a [sizes]
    argument writes one frame for each of the sizes 16, 24, 32, 48, 64, 128
    and 256 that is not larger than the image saved, in that order; the frame
    of a size is the image, among the one saved and the ones appended, that
    has this size, when there is one, and a scaled-down copy otherwise. *)
Module Ico.







End Ico.

(** ** The baseline of a text

    Modelled from the imaging library's documentation of text anchors, since
    the script never reads the metrics of its font: with the default anchor a
    text is drawn with its ascender line at the [y] given, so that its
    baseline lies the ascent of the font below. *)
Definition text_baseline (ascent : Z) (xy : Z * Z) : Z := snd xy + ascent.

(** A bold sans-serif font at size 72, by its measures: the label "loom" has
    the bounding box (0, 12, 198, 68) and the font the ascent 67, the round
    letters reaching one pixel below the baseline. *)
Module BoldSans.

Definition textbbox (_ : Z * Z) (_ : string) (_ : Pil.FreeTypeFont)
    : Z * Z * Z * Z := (0, 12, 198, 68).

Definition ascent : Z := 67.

End BoldSans.

(* ===================================================================== *)
(** * Facts about binary64 arithmetic *)
(* ===================================================================== *)

Import Binary64.

(** ** Counting bits *)

Lemma digits2_pos_size (p : positive) : digits2_pos p = Pos.size p.
Proof. induction p; simpl; congruence. Qed.

Lemma digits_bounds (p : positive) :
  2 ^ (Zpos (digits2_pos p) - 1) <= Zpos p < 2 ^ Zpos (digits2_pos p).
Proof.
  rewrite digits2_pos_size.
  pose proof (Pos.size_gt p) as Hgt. pose proof (Pos.size_le p) as Hle.
  apply Pos2Z.pos_lt_pos in Hgt. apply Pos2Z.pos_le_pos in Hle.
  rewrite Pos2Z.inj_pow in Hgt, Hle.
  split; [|exact Hgt].
  replace (Zpos (Pos.size p)) with (Z.succ (Zpos (Pos.size p) - 1)) in Hle by lia.
  rewrite Z.pow_succ_r in Hle by lia.
  change (Zpos p~0) with (2 * Zpos p) in Hle. lia.
Qed.

Lemma digits_unique (p : positive) (d : Z) :
  2 ^ (d - 1) <= Zpos p < 2 ^ d -> Zpos (digits2_pos p) = d.
Proof.
  intros [Hlo Hhi]. pose proof (digits_bounds p) as [Blo Bhi].
  set (d' := Zpos (digits2_pos p)) in *.
  assert (0 < d) as Hd.
  { destruct (Z_lt_le_dec 0 d); [assumption|].
    destruct (Z.eq_dec d 0) as [->|]; [simpl in Hhi; lia|].
    rewrite Z.pow_neg_r in Hhi by lia. lia. }
  destruct (Z_lt_le_dec d d') as [Hlt|Hge].
  - assert (2 ^ d <= 2 ^ (d' - 1)) by (apply Z.pow_le_mono_r; lia). lia.
  - destruct (Z_lt_le_dec d' d) as [Hlt|Hge'].
    + assert (2 ^ d' <= 2 ^ (d - 1)) by (apply Z.pow_le_mono_r; lia). lia.
    + lia.
Qed.

(** ** Shifting right with round and sticky bits *)

Lemma iter_pos_nat {A : Type} (f : A -> A) (p : positive) (x : A) :
  iter_pos f p x = Nat.iter (Pos.to_nat p) f x.
Proof.
  revert x. induction p as [p IH|p IH|]; intros x.
  - change (iter_pos f p~1 x) with (iter_pos f p (iter_pos f p (f x))).
    rewrite !IH, Pos2Nat.inj_xI.
    replace (S (2 * Pos.to_nat p))%nat with (Pos.to_nat p + S (Pos.to_nat p))%nat by lia.
    rewrite Nat.iter_add, Nat.iter_succ_r. reflexivity.
  - change (iter_pos f p~0 x) with (iter_pos f p (iter_pos f p x)).
    rewrite !IH, Pos2Nat.inj_xO.
    replace (2 * Pos.to_nat p)%nat with (Pos.to_nat p + Pos.to_nat p)%nat by lia.
    rewrite Nat.iter_add. reflexivity.
  - reflexivity.
Qed.

Lemma shr_1_spec (m : Z) (r s : bool) :
  0 <= m ->
  shr_1 (Build_shr_record m r s) = Build_shr_record (m / 2) (Z.odd m) (r || s).
Proof.
  intros Hm. rewrite <- Z.div2_div.
  destruct m as [|p|p]; [reflexivity| |lia].
  destruct p; reflexivity.
Qed.

Lemma shifted_step (m0 k : Z) (mrs : shr_record) :
  0 <= m0 -> 0 <= k -> shifted m0 k mrs -> shifted m0 (k + 1) (shr_1 mrs).
Proof.
  intros Hm Hk [Hq (t & Ht & Hrem & Hs)].
  destruct mrs as [m r s]. cbn [shr_m shr_r shr_s] in Hq, Hrem, Hs. subst m.
  assert (0 < 2 ^ k) as Hpos by (apply Z.pow_pos_nonneg; lia).
  rewrite shr_1_spec by (apply Z.div_pos; lia).
  unfold shifted. rewrite Z.pow_add_r, Z.pow_1_r by lia.
  pose proof (Z.mod_pos_bound m0 (2 ^ k) Hpos) as Hb.
  split; cbn [shr_m shr_r shr_s].
  - rewrite Z.div_div by lia. reflexivity.
  - exists (m0 mod 2 ^ k). repeat split; try lia.
    + rewrite Z.rem_mul_r by lia. rewrite Zmod_odd.
      destruct (Z.odd (m0 / 2 ^ k)); lia.
    + subst s. destruct r; cbn [orb].
      * symmetry. apply negb_true_iff, Z.eqb_neq. lia.
      * f_equal. f_equal. lia.
Qed.

Lemma shifted_iter (m0 : Z) (n : nat) :
  0 <= m0 ->
  shifted m0 (Z.of_nat n) (Nat.iter n shr_1 (Build_shr_record m0 false false)).
Proof.
  intros Hm. induction n as [|n IH].
  - unfold shifted. cbn [Nat.iter nat_rect Z.of_nat]. rewrite Z.pow_0_r.
    split; cbn [shr_m shr_r shr_s]; [rewrite Z.div_1_r; reflexivity|].
    exists 0. rewrite Z.mod_1_r. repeat split; lia.
  - rewrite Nat2Z.inj_succ, <- Z.add_1_r. rewrite Nat.iter_succ.
    apply shifted_step; [assumption|lia|exact IH].
Qed.

Lemma shifted_round (m0 k : Z) (mrs : shr_record) :
  0 <= k -> shifted m0 k mrs ->
  round_nearest_even (shr_m mrs) (loc_of_shr_record mrs)
  = round_half_even_div m0 (2 ^ k).
Proof.
  intros Hk [Hq (t & Ht & Hrem & Hs)].
  destruct mrs as [m r s]. cbn [shr_m shr_r shr_s] in *. subst m.
  unfold round_half_even_div.
  destruct r, s; cbn [loc_of_shr_record round_nearest_even].
  - assert (t <> 0) by (intros ->; discriminate).
    replace (2 * (m0 mod 2 ^ k) ?= 2 ^ k) with Gt by (symmetry; apply Z.compare_gt_iff; lia).
    reflexivity.
  - assert (t = 0) by (destruct (Z.eqb_spec t 0); [assumption|discriminate]).
    replace (2 * (m0 mod 2 ^ k) ?= 2 ^ k) with Eq by (symmetry; apply Z.compare_eq_iff; lia).
    reflexivity.
  - replace (2 * (m0 mod 2 ^ k) ?= 2 ^ k) with Lt by (symmetry; apply Z.compare_lt_iff; lia).
    reflexivity.
  - replace (2 * (m0 mod 2 ^ k) ?= 2 ^ k) with Lt by (symmetry; apply Z.compare_lt_iff; lia).
    reflexivity.
Qed.

Lemma shr_round (m0 : Z) (p : positive) :
  0 <= m0 ->
  let mrs := iter_pos shr_1 p (Build_shr_record m0 false false) in
  round_nearest_even (shr_m mrs) (loc_of_shr_record mrs)
  = round_half_even_div m0 (2 ^ Zpos p).
Proof.
  intros Hm mrs. apply shifted_round; [lia|].
  subst mrs. rewrite iter_pos_nat, <- positive_nat_Z.
  apply shifted_iter. assumption.
Qed.

(** ** Rounding a quotient to the nearest integer, ties to even *)

Section RoundHalfEven.

Variables a b : Z.
Hypothesis Hb : 0 < b.

Lemma rhe_bounds :
  2 * a - b <= 2 * b * round_half_even_div a b <= 2 * a + b.
Proof. rhe_cases a b Hb; nia. Qed.

Lemma rhe_le (N : Z) : a <= N * b -> round_half_even_div a b <= N.
Proof. intros HN. rhe_cases a b Hb; nia. Qed.

Lemma rhe_ge (N : Z) : N * b <= a -> N <= round_half_even_div a b.
Proof. intros HN. rhe_cases a b Hb; nia. Qed.

Lemma rhe_le_half (N : Z) :
  2 * a < (2 * N + 1) * b -> round_half_even_div a b <= N.
Proof. intros HN. rhe_cases a b Hb; nia. Qed.

Lemma rhe_ge_half (N : Z) :
  (2 * N - 1) * b < 2 * a -> N <= round_half_even_div a b.
Proof. intros HN. rhe_cases a b Hb; nia. Qed.

End RoundHalfEven.

Lemma rhe_1 (a : Z) : round_half_even_div a 1 = a.
Proof.
  unfold round_half_even_div. rewrite Z.mod_1_r, Z.div_1_r. reflexivity.
Qed.

Lemma rhe_double (a b : Z) :
  0 < b -> round_half_even_div (2 * a) (2 * b) = round_half_even_div a b.
Proof.
  intros Hb. unfold round_half_even_div.
  rewrite Z.div_mul_cancel_l, Z.mul_mod_distr_l by lia.
  destruct (Z.compare_spec (2 * (2 * (a mod b))) (2 * b));
    destruct (Z.compare_spec (2 * (a mod b)) b); try lia; reflexivity.
Qed.

(** ** Rounding to 53 bits in the normal range *)

Lemma fexp_normal (z : Z) : -1021 <= z -> fexp Py.prec Py.emax z = z - 53.
Proof. intros H. unfold fexp, emin, Py.prec, Py.emax. lia. Qed.

(** The result of the first shift-and-round of [binary_round_aux]. *)
Lemma shr_fexp_round (m : positive) (e : Z) :
  let d := Zpos (digits2_pos m) in
  53 <= d -> -1021 <= d + e ->
  let '(mrs, e') := shr_fexp Py.prec Py.emax (Zpos m) e loc_Exact in
  e' = e + (d - 53) /\
  round_nearest_even (shr_m mrs) (loc_of_shr_record mrs)
  = round_half_even_div (Zpos m) (2 ^ (d - 53)).
Proof.
  intros d Hd He. unfold shr_fexp. cbn [Zdigits2 shr_record_of_loc]. fold d.
  rewrite fexp_normal by assumption.
  replace (d + e - 53 - e) with (d - 53) by lia.
  destruct (d - 53) as [|p|p] eqn:Hk; [| |lia]; cbn [shr].
  - split; [lia|]. cbn [shr_m loc_of_shr_record round_nearest_even].
    rewrite Z.pow_0_r, rhe_1. reflexivity.
  - split; [reflexivity|]. apply shr_round. lia.
Qed.

Lemma binary_round_aux_normal (sx : bool) (m : positive) (e : Z) :
  let d := Zpos (digits2_pos m) in
  53 <= d -> -1021 <= d + e ->
  binary_round_aux Py.prec Py.emax sx (Zpos m) e loc_Exact =
    let '(M, e2) := carry (round_half_even_div (Zpos m) (2 ^ (d - 53)))
                          (e + (d - 53)) in
    if e2 <=? 971 then S754_finite sx (Z.to_pos M) e2 else S754_infinity sx.
Proof.
  intros d Hd He. unfold binary_round_aux.
  pose proof (shr_fexp_round m e Hd He) as H1. fold d in H1.
  destruct (shr_fexp Py.prec Py.emax (Zpos m) e loc_Exact) as [mrs e'].
  destruct H1 as [-> ->].
  set (k := d - 53) in *.
  set (M1 := round_half_even_div (Zpos m) (2 ^ k)).
  pose proof (digits_bounds m) as [Blo Bhi]. fold d in Blo, Bhi.
  assert (0 < 2 ^ k) as Hpk by (apply Z.pow_pos_nonneg; lia).
  assert (2 ^ 52 * 2 ^ k <= Zpos m < 2 ^ 53 * 2 ^ k) as [Mlo Mhi].
  { rewrite <- !Z.pow_add_r by lia.
    replace (52 + k) with (d - 1) by lia. replace (53 + k) with d by lia. lia. }
  assert (2 ^ 52 <= M1 <= 2 ^ 53) as [M1lo M1hi].
  { split; [apply rhe_ge|apply rhe_le]; lia. }
  unfold carry. destruct (Z.eqb_spec M1 (2 ^ 53)) as [Heq|Hne].
  - rewrite Heq. unfold shr_fexp.
    change (Zdigits2 (2 ^ 53)) with 54.
    rewrite fexp_normal by lia.
    replace (54 + (e + k) - 53 - (e + k)) with 1 by lia.
    cbn [shr_record_of_loc shr iter_pos].
    change (shr_1 {| shr_m := 2 ^ 53; shr_r := false; shr_s := false |})
      with {| shr_m := 2 ^ 52; shr_r := false; shr_s := false |}.
    cbn [shr_m]. reflexivity.
  - destruct M1 as [|q|q] eqn:HM1; [lia| |lia].
    unfold shr_fexp. cbn [Zdigits2].
    rewrite (digits_unique q 53) by (change (2 ^ (53 - 1)) with (2 ^ 52); lia).
    rewrite fexp_normal by lia.
    replace (53 + (e + k) - 53 - (e + k)) with 0 by lia.
    cbn [shr_record_of_loc shr shr_m]. rewrite Pos2Z.id. reflexivity.
Qed.

(** ** [float(n)] *)

Lemma iter_xO (m s : positive) : Zpos (Pos.iter xO m s) = Zpos m * 2 ^ Zpos s.
Proof.
  revert m. induction s as [|s IH] using Pos.peano_ind; intros m.
  - cbn [Pos.iter]. rewrite Pos2Z.inj_xO, Z.pow_1_r. lia.
  - rewrite Pos.iter_succ, Pos2Z.inj_xO, IH, Pos2Z.inj_succ, Z.pow_succ_r by lia. lia.
Qed.

Lemma binary_round_int (s : bool) (m : positive) :
  match binary_round Py.prec Py.emax s m 0 with
  | S754_finite s' F ef => s' = s /\ approx (Zpos m) (Zpos F) ef
  | S754_infinity _ => int_bound <= Zpos m
  | _ => False
  end.
Proof.
  unfold binary_round.
  pose proof (digits_bounds m) as [Blo Bhi].
  set (d := Zpos (digits2_pos m)) in *.
  assert (1 <= d) as Hd1 by (subst d; lia).
  rewrite Z.add_0_r, fexp_normal by lia.
  unfold shl_align. rewrite Z.sub_0_r.
  destruct (d - 53) as [|p|p] eqn:Hk.
  - (* exactly 53 digits *)
    rewrite binary_round_aux_normal by (fold d; lia). fold d.
    rewrite Hk, Z.pow_0_r, rhe_1. unfold carry.
    assert (d = 53) as Hd by lia. rewrite Hd in Blo, Bhi.
    change (2 ^ (53 - 1)) with (2 ^ 52) in Blo.
    destruct (Z.eqb_spec (Zpos m) (2 ^ 53)); [lia|].
    cbn [Z.add Z.leb Z.compare]. rewrite Pos2Z.id.
    split; [reflexivity|]. unfold approx. split; [lia|]. split; [lia|].
    left. split; [lia|]. change (2 ^ (- 0)) with 1. lia.
  - (* more than 53 digits: rounded *)
    rewrite binary_round_aux_normal by (fold d; lia). fold d. rewrite Hk.
    set (k := Zpos p) in *.
    set (M1 := round_half_even_div (Zpos m) (2 ^ k)).
    assert (0 < 2 ^ k) as Hpk by (apply Z.pow_pos_nonneg; lia).
    pose proof (rhe_bounds (Zpos m) (2 ^ k) Hpk) as HM1. fold M1 in HM1.
    assert (2 ^ 52 * 2 ^ k <= Zpos m < 2 ^ 53 * 2 ^ k) as [Mlo Mhi].
    { rewrite <- !Z.pow_add_r by lia.
      replace (52 + k) with (d - 1) by lia. replace (53 + k) with d by lia. lia. }
    assert (2 ^ 52 <= M1 <= 2 ^ 53) as [M1lo M1hi].
    { split; [apply rhe_ge|apply rhe_le]; lia. }
    assert (0 < k) as Hk0 by (subst k; lia).
    unfold carry. rewrite Z.add_0_l.
    destruct (Z.eqb_spec M1 (2 ^ 53)) as [Heq|Hne].
    + destruct (Z.leb_spec (k + 1) 971) as [Hle|Hgt].
      * split; [reflexivity|]. change (Zpos (Z.to_pos (2 ^ 52))) with (2 ^ 52).
        unfold approx. split; [lia|]. split; [lia|].
        right. split; [lia|]. rewrite Z.pow_add_r, Z.pow_1_r by lia.
        rewrite Heq in HM1. change (2 ^ 53) with (2 ^ 52 * 2) in HM1. lia.
      * unfold int_bound.
        assert (2 ^ 971 <= 2 ^ k) by (apply Z.pow_le_mono_r; lia).
        rewrite Heq in HM1. lia.
    + destruct (Z.leb_spec k 971) as [Hle|Hgt].
      * split; [reflexivity|]. rewrite Z2Pos.id by lia.
        unfold approx. split; [lia|]. split; [lia|].
        right. split; [lia|]. lia.
      * unfold int_bound.
        assert (2 ^ 972 <= 2 ^ k) by (apply Z.pow_le_mono_r; lia).
        lia.
  - (* fewer than 53 digits: shifted left, exact *)
    assert (2 ^ 52 <= Zpos (Pos.iter xO m p) < 2 ^ 53) as HF.
    { rewrite iter_xO.
      assert (2 ^ 52 = 2 ^ (d - 1) * 2 ^ Zpos p /\ 2 ^ 53 = 2 ^ d * 2 ^ Zpos p)
        as [-> ->].
      { rewrite <- !Z.pow_add_r by lia. split; f_equal; lia. }
      assert (0 < 2 ^ Zpos p) by (apply Z.pow_pos_nonneg; lia). nia. }
    assert (Zpos (digits2_pos (Pos.iter xO m p)) = 53) as Hd53
      by (apply digits_unique; change (2 ^ (53 - 1)) with (2 ^ 52); lia).
    rewrite binary_round_aux_normal by (rewrite Hd53; lia).
    rewrite Hd53. change (53 - 53) with 0. rewrite Z.pow_0_r, rhe_1, Z.add_0_r.
    unfold carry.
    destruct (Z.eqb_spec (Zpos (Pos.iter xO m p)) (2 ^ 53)); [lia|].
    destruct (Z.leb_spec (Zneg p) 971); [|lia].
    rewrite Pos2Z.id. split; [reflexivity|].
    unfold approx. split; [lia|]. split; [lia|].
    left. split; [lia|]. rewrite iter_xO. reflexivity.
Qed.

(** ** Products with a constant below one *)

Lemma round_half_even_double (M e : Z) :
  round_half_even (2 * M) e = round_half_even M (e + 1).
Proof.
  unfold round_half_even.
  destruct (Z.leb_spec 0 e) as [He|He].
  - destruct (Z.leb_spec 0 (e + 1)); [|lia].
    rewrite Z.pow_add_r, Z.pow_1_r by lia. lia.
  - destruct (Z.leb_spec 0 (e + 1)) as [He1|He1].
    + assert (e = -1) as -> by lia. change (2 ^ (- -1)) with (2 * 1).
      rewrite rhe_double, rhe_1 by lia. change (2 ^ (-1 + 1)) with 1. lia.
    + replace (- e) with (- (e + 1) + 1) by lia.
      rewrite Z.pow_add_r, Z.pow_1_r by lia.
      rewrite (Z.mul_comm (2 ^ _) 2).
      apply rhe_double. apply Z.pow_pos_nonneg; lia.
Qed.

Lemma round_carry (M1 e : Z) :
  let '(M, e2) := carry M1 e in
  round_half_even M e2 = round_half_even M1 e.
Proof.
  unfold carry. destruct (Z.eqb_spec M1 (2 ^ 53)) as [->|]; [|reflexivity].
  change (2 ^ 53) with (2 * 2 ^ 52). symmetry. apply round_half_even_double.
Qed.

(** The product of two normal binary64 numbers. *)
Lemma fmul_finite (sx sy : bool) (mx my : positive) (ex ey : Z) :
  2 ^ 52 <= Zpos mx < 2 ^ 53 -> 2 ^ 52 <= Zpos my < 2 ^ 53 ->
  -1126 <= ex + ey ->
  exists k, (k = 52 \/ k = 53) /\
    2 ^ 52 * 2 ^ k <= Zpos mx * Zpos my < 2 ^ 53 * 2 ^ k /\
    Py.fmul (S754_finite sx mx ex) (S754_finite sy my ey) =
      let '(M, e2) := carry (round_half_even_div (Zpos mx * Zpos my) (2 ^ k))
                            (ex + ey + k) in
      if e2 <=? 971 then S754_finite (xorb sx sy) (Z.to_pos M) e2
      else S754_infinity (xorb sx sy).
Proof.
  intros Hx Hy He. unfold Py.fmul. cbn [SFmul].
  set (P := (mx * my)%positive).
  assert (2 ^ 104 <= Zpos P < 2 ^ 106) as HP.
  { subst P. rewrite Pos2Z.inj_mul.
    change (2 ^ 104) with (2 ^ 52 * 2 ^ 52). change (2 ^ 106) with (2 ^ 53 * 2 ^ 53).
    nia. }
  destruct (Z_lt_le_dec (Zpos P) (2 ^ 105)) as [Hlt|Hge].
  - exists 52. split; [left; reflexivity|].
    rewrite <- Pos2Z.inj_mul. fold P. split; [change (2 ^ 52 * 2 ^ 52) with (2 ^ 104);
      change (2 ^ 53 * 2 ^ 52) with (2 ^ 105); lia|].
    assert (Zpos (digits2_pos P) = 105) as Hd
      by (apply digits_unique; change (2 ^ (105 - 1)) with (2 ^ 104); lia).
    rewrite binary_round_aux_normal by (rewrite Hd; lia).
    rewrite Hd. reflexivity.
  - exists 53. split; [right; reflexivity|].
    rewrite <- Pos2Z.inj_mul. fold P. split; [change (2 ^ 52 * 2 ^ 53) with (2 ^ 105);
      change (2 ^ 53 * 2 ^ 53) with (2 ^ 106); lia|].
    assert (Zpos (digits2_pos P) = 106) as Hd
      by (apply digits_unique; change (2 ^ (106 - 1)) with (2 ^ 105); lia).
    rewrite binary_round_aux_normal by (rewrite Hd; lia).
    rewrite Hd. reflexivity.
Qed.

(** Rounding the product of a normal number and a normal constant below one
    never overflows; the integer it rounds to is the rounding of the
    once-rounded product. *)
Lemma round_fmul (sx : bool) (mx my : positive) (ex ey : Z) :
  2 ^ 52 <= Zpos mx < 2 ^ 53 -> 2 ^ 52 <= Zpos my < 2 ^ 53 ->
  -1126 <= ex + ey -> ex <= 971 -> ey <= -53 ->
  exists k M1, (k = 52 \/ k = 53) /\
    2 ^ 52 * 2 ^ k <= Zpos mx * Zpos my < 2 ^ 53 * 2 ^ k /\
    M1 = round_half_even_div (Zpos mx * Zpos my) (2 ^ k) /\
    2 ^ 52 <= M1 <= 2 ^ 53 /\
    Py.round (Py.fmul (S754_finite sx mx ex) (S754_finite false my ey))
    = Ok (cond_Zopp sx (round_half_even M1 (ex + ey + k))).
Proof.
  intros Hx Hy He Hex Hey.
  destruct (fmul_finite sx false mx my ex ey Hx Hy He) as (k & Hk & HP & Hmul).
  exists k, (round_half_even_div (Zpos mx * Zpos my) (2 ^ k)).
  set (P := Zpos mx * Zpos my) in *.
  set (M1 := round_half_even_div P (2 ^ k)) in *.
  assert (0 < 2 ^ k) as Hpk by (apply Z.pow_pos_nonneg; lia).
  assert (2 ^ 52 <= M1 <= 2 ^ 53) as HM1.
  { split; [apply rhe_ge|apply rhe_le]; lia. }
  split; [assumption|]. split; [assumption|]. split; [reflexivity|].
  split; [assumption|].
  rewrite Hmul. pose proof (round_carry M1 (ex + ey + k)) as Hc.
  assert (M1 = 2 ^ 53 -> k = 52) as Hk52.
  { intros HM. destruct Hk as [?|Hk]; [assumption|]. exfalso.
    assert (M1 <= 2 ^ 53 - 1); [|lia].
    apply rhe_le_half; [assumption|]. rewrite Hk in *.
    assert (P <= (2 ^ 53 - 1) * 2 ^ 53) by (subst P; nia). lia. }
  unfold carry in *. destruct (Z.eqb_spec M1 (2 ^ 53)) as [Heq|Hne].
  - rewrite (Hk52 Heq) in *.
    destruct (Z.leb_spec (ex + ey + 52 + 1) 971); [|lia].
    cbn [Py.round]. rewrite Z2Pos.id by reflexivity. rewrite Hc.
    rewrite xorb_false_r. reflexivity.
  - destruct (Z.leb_spec (ex + ey + k) 971); [|lia].
    cbn [Py.round]. rewrite Z2Pos.id by lia.
    rewrite xorb_false_r. reflexivity.
Qed.

(** ** [round(n * 0.78)] *)

Lemma approx_pow_le (n F ef : Z) :
  1 <= n -> approx n F ef -> ef <= 0 -> 2 ^ (- ef) <= 2 ^ 52.
Proof.
  intros Hn (HF & Hef & _) He. apply Z.pow_le_mono_r; lia.
Qed.

Lemma glyph_size_finite (n : Z) (F : positive) (ef : Z) :
  1 <= n -> approx n (Zpos F) ef ->
  exists g,
    Py.round (Py.fmul (S754_finite false F ef) Gen.ICON_GLYPH_RATIO) = Ok g /\
    1 <= g <= n.
Proof.
  intros Hn Ha. pose proof Ha as (HF & Hef & Hval).
  unfold Gen.ICON_GLYPH_RATIO.
  destruct (round_fmul false F 7025615418697974 ef (-53))
    as (k & M1 & Hk & HP & HM1 & HM1b & Hround); try lia.
  rewrite Hround. cbn [cond_Zopp]. eexists. split; [reflexivity|].
  assert (0 < 2 ^ k) as Hpk by (apply Z.pow_pos_nonneg; lia).
  pose proof (rhe_bounds (Zpos F * 7025615418697974) (2 ^ k) Hpk) as Hb.
  rewrite <- HM1 in Hb. clear HM1 Hround.
  unfold round_half_even.
  destruct Hk as [-> | ->].
  - (* the product has 105 bits *)
    change (2 ^ 52) with 4503599627370496 in *.
    change (2 ^ 53) with 9007199254740992 in *.
    assert (4503599627370496 < M1 <= 2 * Zpos F - 2) as HM by lia.
    replace (ef + -53 + 52) with (ef - 1) by lia.
    destruct (Z.leb_spec 0 (ef - 1)) as [He|He].
    + destruct Hval as [[? _]|[_ Hv]]; [lia|].
      replace ef with (ef - 1 + 1) in Hv by lia.
      rewrite Z.pow_add_r, Z.pow_1_r in Hv by lia.
      assert (0 < 2 ^ (ef - 1)) as HT by (apply Z.pow_pos_nonneg; lia).
      nia.
    + destruct Hval as [[_ Hv]|[? _]]; [|lia].
      pose proof (approx_pow_le n (Zpos F) ef Hn Ha ltac:(lia)) as Hpb.
      assert (0 < 2 ^ (- ef)) as HT by (apply Z.pow_pos_nonneg; lia).
      replace (- (ef - 1)) with (- ef + 1) by lia.
      rewrite Z.pow_add_r, Z.pow_1_r by lia.
      split.
      * apply rhe_ge_half; lia.
      * apply rhe_le; lia.
  - (* the product has 106 bits *)
    change (2 ^ 52) with 4503599627370496 in *.
    change (2 ^ 53) with 9007199254740992 in *.
    assert (4503599627370496 <= M1 <= Zpos F - 1) as HM by lia.
    replace (ef + -53 + 53) with ef by lia.
    destruct (Z.leb_spec 0 ef) as [He|He].
    + assert (0 < 2 ^ ef) as HT by (apply Z.pow_pos_nonneg; lia).
      destruct Hval as [[? Hv]|[_ Hv]].
      * assert (ef = 0) as -> by lia. change (2 ^ (- 0)) with 1 in Hv.
        rewrite Z.pow_0_r. lia.
      * nia.
    + destruct Hval as [[_ Hv]|[? _]]; [|lia].
      pose proof (approx_pow_le n (Zpos F) ef Hn Ha ltac:(lia)) as Hpb.
      assert (0 < 2 ^ (- ef)) as HT by (apply Z.pow_pos_nonneg; lia).
      split.
      * apply rhe_ge_half; lia.
      * apply rhe_le; lia.
Qed.

(** [round(n * 0.78)] for a positive [int] *)
Lemma glyph_size_spec (n : Z) :
  1 <= n ->
  match Gen.glyph_size_of n with
  | Ok g => 1 <= g <= n
  | Raise e => e = OverflowError /\ int_bound <= n
  end.
Proof.
  intros Hn. unfold Gen.glyph_size_of, Py.mul_float, Py.to_float, Py.int_to_float.
  destruct n as [|m|m]; try lia.
  cbn [binary_normalize].
  pose proof (binary_round_int false m) as Hx.
  destruct (binary_round Py.prec Py.emax false m 0) as [s|s| |s F ef];
    try contradiction.
  - cbn [Py.bind]. split; [reflexivity|assumption].
  - destruct Hx as [-> Ha]. cbn [Py.bind].
    destruct (glyph_size_finite (Zpos m) F ef Hn Ha) as (g & -> & Hg). exact Hg.
Qed.

(* ===================================================================== *)
(** * The script's constants, evaluated *)
(* ===================================================================== *)

(** The two ratios are the binary64 numbers nearest to the decimal literals:
    normal mantissas within half a unit in the last place of 78/100 and of
    1014/10000. *)
Example literal_ratios :
  Gen.ICON_GLYPH_RATIO = S754_finite false 7025615418697974 (-53) /\
  Z.abs (100 * 7025615418697974 - 78 * 2 ^ 53) <= 50 /\
  Gen.CORNER_RADIUS_RATIO = S754_finite false 7306640035445893 (-56) /\
  Z.abs (10000 * 7306640035445893 - 1014 * 2 ^ 56) <= 5000.
Proof. repeat split; vm_compute; discriminate. Qed.

Example two_thirds_value :
  truediv (Int 2) (Int 3) = Ok Gen.two_thirds /\
  Gen.two_thirds = S754_finite false 6004799503160661 (-53).
Proof. split; reflexivity. Qed.

(** [round(s * 0.78)] and [max(1, round(s * 0.1014))] at the icon sizes. *)
Example glyph_sizes_of_icons :
  map Gen.glyph_size_of Gen.ICO_SIZES
  = [Ok 200; Ok 100; Ok 50; Ok 37; Ok 25; Ok 12].
Proof. vm_compute. reflexivity. Qed.

Example radii_of_icons :
  map (fun s => bind (Gen.blue_rounded_rect s s) (fun bg =>
                  match bg with
                  | Pil.rounded_rectangle _ _ radius _ => Ok radius
                  | _ => Raise ValueError
                  end)) (4 :: Gen.ICO_SIZES)
  = [Ok 1; Ok 26; Ok 13; Ok 6; Ok 5; Ok 3; Ok 2].
Proof. vm_compute. reflexivity. Qed.

(** Ties go to the even neighbour, after the product itself was rounded:
    [75 * 0.78] is the float 58.5 and [25 * 0.78] is the float 19.5. *)
Example glyph_size_ties :
  Gen.glyph_size_of 75 = Ok 58 /\ Gen.glyph_size_of 25 = Ok 20.
Proof. split; vm_compute; reflexivity. Qed.

Example glyph_size_range_end :
  is_ok (Gen.glyph_size_of (int_bound - 1)) = true /\
  Gen.glyph_size_of int_bound = Raise OverflowError.
Proof. split; vm_compute; reflexivity. Qed.

Example font_error_message :
  Gen.font_error
  = RuntimeError
      "No suitable font found. Tried: ['C:/Windows/Fonts/segoeuib.ttf', '/usr/share/fonts/truetype/dejavu/DejaVuSans-Bold.ttf', '/System/Library/Fonts/Helvetica.ttc']".
Proof. vm_compute. reflexivity. Qed.

(* ===================================================================== *)
(** * Path conversion *)
(* ===================================================================== *)

Lemma fmul_comm (x y : float) : fmul x y = fmul y x.
Proof.
  unfold fmul. destruct x as [sx|sx| |sx mx ex], y as [sy|sy| |sy my ey];
    cbn [SFmul]; rewrite ?(xorb_comm sx sy); try reflexivity.
  rewrite Pos.mul_comm, Z.add_comm. reflexivity.
Qed.

(** [round(n * c)] returns for every [int] in the binary64 range when [c] is
    a normal constant below one. *)
Lemma round_mul_int_total (n : Z) (my : positive) (ey : Z) :
  2 ^ 52 <= Zpos my < 2 ^ 53 -> -1000 <= ey <= -53 ->
  Z.abs n < int_bound ->
  exists r, bind (mul_float (Int n) (Float (S754_finite false my ey))) round = Ok r.
Proof.
  intros Hy Hey Hn. unfold mul_float, to_float, int_to_float.
  destruct n as [|m|m]; cbn [binary_normalize].
  - exists 0. reflexivity.
  - pose proof (binary_round_int false m) as Hx.
    destruct (binary_round prec emax false m 0) as [s|s| |s F ef];
      try contradiction; [lia|].
    destruct Hx as [_ (HF & Hef & _)]. cbn [bind].
    destruct (round_fmul s F my ef ey) as (k & M1 & _ & _ & _ & _ & ->); try lia.
    eexists. reflexivity.
  - pose proof (binary_round_int true m) as Hx.
    destruct (binary_round prec emax true m 0) as [s|s| |s F ef];
      try contradiction; [lia|].
    destruct Hx as [_ (HF & Hef & _)]. cbn [bind].
    destruct (round_fmul s F my ef ey) as (k & M1 & _ & _ & _ & _ & ->); try lia.
    eexists. reflexivity.
Qed.

(** ** The path conversion is a map over the segments *)

Lemma fold_call_map (f : Svg.Segment -> AggPath.Cmd) (l : list Svg.Segment)
    (acc : AggPath.Path) :
  fold_left (fun p seg => AggPath.call p (f seg)) l acc = (acc ++ map f l)%list.
Proof.
  revert acc. induction l as [|seg l IH]; intros acc; cbn [fold_left map].
  - rewrite app_nil_r. reflexivity.
  - rewrite IH. unfold AggPath.call. rewrite <- app_assoc. reflexivity.
Qed.

Lemma shape_to_aggpath_map (shape : Svg.Shape) (scale : float) :
  Gen.shape_to_aggpath shape scale
  = map (Gen.segment_call scale) (Svg.segments shape).
Proof. unfold Gen.shape_to_aggpath. apply fold_call_map. Qed.

Lemma shape_to_aggpath_app (fill : option Svg.Color) (l1 l2 : list Svg.Segment)
    (scale : float) :
  Gen.shape_to_aggpath {| Svg.fill := fill; Svg.segments := l1 ++ l2 |} scale
  = (Gen.shape_to_aggpath {| Svg.fill := fill; Svg.segments := l1 |} scale ++
     Gen.shape_to_aggpath {| Svg.fill := fill; Svg.segments := l2 |} scale)%list.
Proof. rewrite !shape_to_aggpath_map. cbn [Svg.segments]. apply map_app. Qed.

(** C3.  A quadratic segment with start [S], control [C] and end [E] is
    emitted as the cubic whose control points are [S + 2/3*(C-S)] and
    [E + 2/3*(C-E)] and whose end point is [E], all three points scaled;
    [2/3] is the float the expression evaluates to; the segments before and
    after are converted as they would be without it. *)
Theorem quadratic_promoted_to_cubic (fill : option Svg.Color)
    (before after : list Svg.Segment) (S C E : Svg.Point) (scale : float) :
  let '(sx, sy) := (Svg.x S * scale, Svg.y S * scale)%f64 in
  let '(cx, cy) := (Svg.x C * scale, Svg.y C * scale)%f64 in
  let '(ex, ey) := (Svg.x E * scale, Svg.y E * scale)%f64 in
  truediv (Int 2) (Int 3) = Ok Gen.two_thirds /\
  Gen.shape_to_aggpath
    {| Svg.fill := fill;
       Svg.segments := before ++ Svg.QuadraticBezier S C E :: after |} scale
  = (Gen.shape_to_aggpath {| Svg.fill := fill; Svg.segments := before |} scale ++
     AggPath.curveto
       (sx + Gen.two_thirds * (cx - sx))%f64 (sy + Gen.two_thirds * (cy - sy))%f64
       (ex + Gen.two_thirds * (cx - ex))%f64 (ey + Gen.two_thirds * (cy - ey))%f64
       ex ey
     :: Gen.shape_to_aggpath {| Svg.fill := fill; Svg.segments := after |} scale)%list.
Proof.
  cbv zeta. split; [reflexivity|].
  rewrite shape_to_aggpath_app, (shape_to_aggpath_map {| Svg.segments := _ :: _ |}).
  cbn [Svg.segments map]. rewrite <- shape_to_aggpath_map with (shape := {| Svg.fill := fill; Svg.segments := after |}).
  reflexivity.
Qed.

(** C9.  An arc segment is emitted as a straight line to its scaled end
    point, whatever its centre, radii and sweep. *)
Theorem arc_drawn_as_chord (fill : option Svg.Color)
    (before after : list Svg.Segment) (S E center prx pry : Svg.Point)
    (sweep scale : float) :
  Gen.shape_to_aggpath
    {| Svg.fill := fill;
       Svg.segments := before ++ Svg.Arc S E center prx pry sweep :: after |} scale
  = (Gen.shape_to_aggpath {| Svg.fill := fill; Svg.segments := before |} scale ++
     AggPath.lineto (Svg.x E * scale)%f64 (Svg.y E * scale)%f64
     :: Gen.shape_to_aggpath {| Svg.fill := fill; Svg.segments := after |} scale)%list.
Proof.
  rewrite shape_to_aggpath_app, (shape_to_aggpath_map {| Svg.segments := _ :: _ |}).
  cbn [Svg.segments map]. rewrite <- shape_to_aggpath_map with (shape := {| Svg.fill := fill; Svg.segments := after |}).
  reflexivity.
Qed.

(* ===================================================================== *)
(** * Rasterisation and background *)
(* ===================================================================== *)

(** ** The loop over the elements *)

Lemma draw_elements_app (scale : float) (canvas : AggDraw.Canvas)
    (l1 l2 : list Svg.Element) :
  Gen.draw_elements scale canvas (l1 ++ l2)
  = bind (Gen.draw_elements scale canvas l1)
         (fun canvas' => Gen.draw_elements scale canvas' l2).
Proof.
  revert canvas. induction l1 as [|elem l1 IH]; intros canvas.
  - reflexivity.
  - cbn [app Gen.draw_elements].
    destruct (Gen.draw_element scale canvas elem) as [canvas'|e]; cbn [bind].
    + apply IH.
    + reflexivity.
Qed.

Lemma stroked_path (c : AggDraw.Canvas) (p : AggPath.Path) (b : AggPath.Brush) :
  stroked (AggDraw.path c p b) = stroked c.
Proof.
  unfold stroked, AggDraw.path. cbn [AggDraw.pending].
  rewrite filter_app. cbn [filter AggPath.pen]. apply app_nil_r.
Qed.

Lemma draw_element_stroked (scale : float) (canvas : AggDraw.Canvas)
    (elem : Svg.Element) :
  match Gen.draw_element scale canvas elem with
  | Ok canvas' => stroked canvas' = stroked canvas
  | Raise _ => True
  end.
Proof.
  destruct elem as [shape|]; cbn [Gen.draw_element]; [|reflexivity].
  destruct (Gen.color_to_rgba (Svg.fill shape)) as [[[[[r g] b] a]|]|e];
    cbn [bind]; trivial.
  apply stroked_path.
Qed.

Lemma draw_elements_stroked (scale : float) (elems : list Svg.Element) :
  forall canvas,
  match Gen.draw_elements scale canvas elems with
  | Ok canvas' => stroked canvas' = stroked canvas
  | Raise _ => True
  end.
Proof.
  induction elems as [|elem elems IH]; intros canvas; cbn [Gen.draw_elements].
  - reflexivity.
  - pose proof (draw_element_stroked scale canvas elem) as H1.
    destruct (Gen.draw_element scale canvas elem) as [canvas1|e]; cbn [bind]; [|trivial].
    specialize (IH canvas1).
    destruct (Gen.draw_elements scale canvas1 elems); [congruence|trivial].
Qed.

(** C8.  A shape whose fill is the colour "none" is skipped: the canvas is
    left as it was, the loop goes on as if the shape were not in the
    document, and no request of the loop ever strokes an outline. *)
Theorem unfilled_shape_skipped (scale : float) (canvas : AggDraw.Canvas)
    (segs : list Svg.Segment) (before after elems : list Svg.Element) :
  let shape := Svg.IsShape {| Svg.fill := Some Svg.ColorNone; Svg.segments := segs |} in
  Gen.draw_element scale canvas shape = Ok canvas /\
  Gen.draw_elements scale canvas (before ++ shape :: after)
  = Gen.draw_elements scale canvas (before ++ after) /\
  match Gen.draw_elements scale canvas elems with
  | Ok canvas' => stroked canvas' = stroked canvas
  | Raise _ => True
  end.
Proof.
  cbv zeta. split; [reflexivity|]. split.
  - rewrite !draw_elements_app.
    destruct (Gen.draw_elements scale canvas before); reflexivity.
  - apply draw_elements_stroked.
Qed.

(** ** The background *)

Lemma min_times_ratio_total (w h : Z) :
  Z.abs (Z.min w h) < int_bound ->
  exists r,
    bind (mul_float (Int (Z.min w h)) (Float Gen.CORNER_RADIUS_RATIO)) round = Ok r.
Proof.
  intros H. apply round_mul_int_total; [| |assumption].
  - change (2 ^ 52) with 4503599627370496. change (2 ^ 53) with 9007199254740992. lia.
  - lia.
Qed.

Lemma mul_float_comm_const (n : Z) (c : float) :
  mul_float (Float c) (Int n) = mul_float (Int n) (Float c).
Proof.
  unfold mul_float. cbn [to_float bind].
  destruct (int_to_float n); cbn [bind]; [|reflexivity].
  rewrite fmul_comm. reflexivity.
Qed.

(** The background returns whenever the smaller side converts to a float. *)
Lemma blue_rounded_rect_returns (w h : Z) :
  Z.abs (Z.min w h) < int_bound ->
  exists r,
    bind (mul_float (Int (Z.min w h)) (Float Gen.CORNER_RADIUS_RATIO)) round = Ok r /\
    Gen.blue_rounded_rect w h
    = Ok (Pil.rounded_rectangle (Pil.new "RGBA" (w, h) (0, 0, 0, 0))
            (0, 0, w - 1, h - 1) (Z.max 1 r) (0, 132, 190, 255)).
Proof.
  intros H. destruct (min_times_ratio_total w h H) as [r Hr].
  exists r. split; [exact Hr|].
  unfold Gen.blue_rounded_rect.
  destruct (mul_float (Int (Z.min w h)) (Float Gen.CORNER_RADIUS_RATIO)) as [x|e];
    cbn [bind] in Hr |- *; [|discriminate].
  rewrite Hr. reflexivity.
Qed.

(** C5.  For a width and a height from one pixel up to the bound of an image
    side, the background is a fresh transparent [w] x [h] image on which one
    rounded rectangle is drawn from (0, 0) to (w-1, h-1), inset by one pixel,
    filled with the constant blue at alpha 255; its radius is
    [max(1, round(CORNER_RADIUS_RATIO * min(w, h)))] with the ratio 0.1014:
    the rounded product when that is at least one, and one otherwise. *)
Theorem blue_rounded_rect_spec (w h : Z) :
  1 <= w < side_bound -> 1 <= h < side_bound ->
  exists r radius,
    Gen.CORNER_RADIUS_RATIO = S754_finite false 7306640035445893 (-56) /\
    bind (mul_float (Float Gen.CORNER_RADIUS_RATIO) (Int (Z.min w h))) round = Ok r /\
    radius = Z.max 1 r /\ 1 <= radius /\ (1 <= r -> radius = r) /\
    Gen.blue_rounded_rect w h
    = Ok (Pil.rounded_rectangle (Pil.new "RGBA" (w, h) (0, 0, 0, 0))
            (0, 0, w - 1, h - 1) radius (0, 132, 190, 255)) /\
    Gen.BLUE = (0, 132, 190).
Proof.
  intros Hw Hh.
  assert (Z.abs (Z.min w h) < int_bound) as H
    by (unfold side_bound, int_bound in *; lia).
  destruct (blue_rounded_rect_returns w h H) as (r & Hr & Hbg).
  exists r, (Z.max 1 r). rewrite mul_float_comm_const.
  split; [reflexivity|].
  split; [exact Hr|]. split; [reflexivity|]. split; [lia|]. split; [lia|].
  split; [exact Hbg|reflexivity].
Qed.

Lemma blue_rounded_rect_witness :
  (1 <= 256 < side_bound /\ 1 <= 128 < side_bound) /\
  exists r radius,
    Gen.CORNER_RADIUS_RATIO = S754_finite false 7306640035445893 (-56) /\
    bind (mul_float (Float Gen.CORNER_RADIUS_RATIO) (Int (Z.min 256 128))) round = Ok r /\
    radius = Z.max 1 r /\ 1 <= radius /\ (1 <= r -> radius = r) /\
    Gen.blue_rounded_rect 256 128
    = Ok (Pil.rounded_rectangle (Pil.new "RGBA" (256, 128) (0, 0, 0, 0))
            (0, 0, 256 - 1, 128 - 1) radius (0, 132, 190, 255)) /\
    Gen.BLUE = (0, 132, 190).
Proof.
  assert (1 <= 256 < side_bound /\ 1 <= 128 < side_bound) as [Hw Hh]
    by (unfold side_bound; lia).
  split; [split; assumption|]. apply (blue_rounded_rect_spec 256 128 Hw Hh).
Defined.

(* ===================================================================== *)
(** * Banner *)
(* ===================================================================== *)

(** ** The rasterised glyph *)

Lemma draw_elements_image (scale : float) (elems : list Svg.Element) :
  forall canvas canvas',
  Gen.draw_elements scale canvas elems = Ok canvas' ->
  AggDraw.image canvas' = AggDraw.image canvas.
Proof.
  induction elems as [|elem elems IH]; intros canvas canvas'; cbn [Gen.draw_elements].
  - intros [= <-]. reflexivity.
  - destruct (Gen.draw_element scale canvas elem) as [canvas1|e] eqn:H1;
      cbn [bind]; [|discriminate].
    intros H2. rewrite (IH _ _ H2).
    destruct elem as [shape|]; cbn [Gen.draw_element] in H1; [|congruence].
    destruct (Gen.color_to_rgba (Svg.fill shape)) as [[[[[r g] b] a]|]|e];
      cbn [bind] in H1; try congruence.
    injection H1 as <-. reflexivity.
Qed.

Section Rendering.

Variable parse : string -> Z -> Svg.SVG.
Variable textbbox : Z * Z -> string -> Pil.FreeTypeFont -> Z * Z * Z * Z.

Lemma render_svg_size (svg_content : string) (n : Z) (img : Pil.Image) :
  Gen.render_svg parse svg_content n = Ok img -> Pil.size img = (n, n).
Proof.
  unfold Gen.render_svg.
  destruct (match Svg.width (parse svg_content n) with
            | Some w => _ | None => _ end) as [vw|]; cbn [bind]; [|discriminate].
  destruct (truediv (Int n) vw) as [scale|]; cbn [bind]; [|discriminate].
  destruct (Gen.draw_elements scale _ _) as [canvas|] eqn:Hd; cbn [bind];
    [|discriminate].
  intros [= <-]. unfold AggDraw.flush. cbn [Pil.size].
  rewrite (draw_elements_image _ _ _ _ Hd). reflexivity.
Qed.

Lemma blue_rounded_rect_size (w h : Z) (img : Pil.Image) :
  Gen.blue_rounded_rect w h = Ok img -> Pil.size img = (w, h).
Proof.
  unfold Gen.blue_rounded_rect.
  destruct (mul_float _ _) as [x|]; cbn [bind]; [|discriminate].
  destruct (round x) as [r|]; cbn [bind]; [|discriminate].
  intros [= <-]. reflexivity.
Qed.

Lemma blue_rounded_rect_total (w h : Z) :
  Z.abs (Z.min w h) < int_bound ->
  exists bg, Gen.blue_rounded_rect w h = Ok bg /\ Pil.size bg = (w, h).
Proof.
  intros H. destruct (blue_rounded_rect_returns w h H) as (r & _ & Hbg).
  eexists. split; [exact Hbg|reflexivity].
Qed.

(** The banner, once the glyph is rasterised and the background drawn. *)
Lemma render_banner_eq (svg_content : string) (font : Pil.FreeTypeFont)
    (hi : Pil.Image) :
  Gen.render_svg parse svg_content (Gen.BANNER_LOGO_H * 4) = Ok hi ->
  let '(b0, b1, b2, b3) := textbbox (0, 0) "loom"%string font in
  let tw := b2 - b0 in
  let th := b3 - b1 in
  let W := Gen.BANNER_LOGO_H + tw + 2 * Gen.BANNER_INNER_PAD in
  let H := Z.max Gen.BANNER_LOGO_H th + 2 * Gen.BANNER_INNER_PAD in
  Z.abs (Z.min (W * 4) (H * 4)) < int_bound ->
  exists hi_banner,
    Gen.blue_rounded_rect (W * 4) (H * 4) = Ok hi_banner /\
    let glyph := Pil.resize hi (Gen.BANNER_LOGO_H, Gen.BANNER_LOGO_H) Pil.LANCZOS in
    Gen.render_banner parse textbbox svg_content font
    = Ok (Pil.text
            (Pil.paste (Pil.resize hi_banner (W, H) Pil.LANCZOS) glyph
               (Gen.BANNER_INNER_PAD, (H - Gen.BANNER_LOGO_H) / 2) (Some glyph))
            (Gen.BANNER_INNER_PAD + Gen.BANNER_LOGO_H,
             H - Gen.BANNER_INNER_PAD - th - b1)
            "loom" font (255, 255, 255, 255)).
Proof.
  intros Hsvg. unfold Gen.render_banner. rewrite Hsvg. cbn [bind].
  destruct (textbbox (0, 0) "loom"%string font) as [[[b0 b1] b2] b3].
  cbv zeta. intros Hb.
  rewrite !(Z.mul_comm 2 Gen.BANNER_INNER_PAD) in Hb |- *.
  destruct (blue_rounded_rect_total _ _ Hb) as (bg & Hbg & _).
  exists bg. split; [exact Hbg|]. rewrite Hbg. reflexivity.
Qed.

(** C6.  The banner is [W] x [H] pixels with
    [W = glyph height + text width + 2 * padding] and
    [H = max(glyph height, text height) + 2 * padding], the text width and
    height being those of the bounding box of "loom" under the font. *)
Theorem banner_canvas_dimensions (svg_content : string)
    (font : Pil.FreeTypeFont) (hi : Pil.Image) :
  let '(b0, b1, b2, b3) := textbbox (0, 0) "loom"%string font in
  let tw := b2 - b0 in
  let th := b3 - b1 in
  let W := Gen.BANNER_LOGO_H + tw + 2 * Gen.BANNER_INNER_PAD in
  let H := Z.max Gen.BANNER_LOGO_H th + 2 * Gen.BANNER_INNER_PAD in
  Gen.render_svg parse svg_content (Gen.BANNER_LOGO_H * 4) = Ok hi ->
  Z.abs (Z.min (W * 4) (H * 4)) < int_bound ->
  exists banner,
    Gen.render_banner parse textbbox svg_content font = Ok banner /\
    Pil.size banner = (W, H).
Proof.
  pose proof (render_banner_eq svg_content font hi) as Heq.
  destruct (textbbox (0, 0) "loom"%string font) as [[[b0 b1] b2] b3].
  cbv zeta in *. intros Hsvg Hb.
  destruct (Heq Hsvg Hb) as (bg & _ & ->).
  eexists. split; [reflexivity|]. reflexivity.
Qed.

(** C7, as amended.  The label "loom" is drawn in opaque white at
    [x = padding + glyph height], which is the right edge of the pasted
    glyph, and at the height [ty] that puts the bottom of its measured
    bounding box, [ty + bbox top + text height], on the bottom padding line
    [H - padding].  Where the baseline of the text falls is not part of the
    statement. *)
Theorem banner_text_position (svg_content : string)
    (font : Pil.FreeTypeFont) (hi : Pil.Image) :
  let '(b0, b1, b2, b3) := textbbox (0, 0) "loom"%string font in
  let th := b3 - b1 in
  let W := Gen.BANNER_LOGO_H + (b2 - b0) + 2 * Gen.BANNER_INNER_PAD in
  let H := Z.max Gen.BANNER_LOGO_H th + 2 * Gen.BANNER_INNER_PAD in
  Gen.render_svg parse svg_content (Gen.BANNER_LOGO_H * 4) = Ok hi ->
  Z.abs (Z.min (W * 4) (H * 4)) < int_bound ->
  exists bg glyph gy ty,
    Gen.render_banner parse textbbox svg_content font
    = Ok (Pil.text (Pil.paste bg glyph (Gen.BANNER_INNER_PAD, gy) (Some glyph))
            (Gen.BANNER_INNER_PAD + Gen.BANNER_LOGO_H, ty) "loom" font
            (255, 255, 255, 255)) /\
    Pil.size glyph = (Gen.BANNER_LOGO_H, Gen.BANNER_LOGO_H) /\
    Gen.BANNER_INNER_PAD + fst (Pil.size glyph)
    = Gen.BANNER_INNER_PAD + Gen.BANNER_LOGO_H /\
    ty = (H - Gen.BANNER_INNER_PAD) - th - b1 /\
    ty + b1 + th = H - Gen.BANNER_INNER_PAD /\
    ty + b3 = H - Gen.BANNER_INNER_PAD.
Proof.
  pose proof (render_banner_eq svg_content font hi) as Heq.
  destruct (textbbox (0, 0) "loom"%string font) as [[[b0 b1] b2] b3].
  cbv zeta in *. intros Hsvg Hb.
  destruct (Heq Hsvg Hb) as (bg & _ & ->).
  do 4 eexists. split; [reflexivity|].
  cbn [Pil.size fst]. repeat split; lia.
Qed.

End Rendering.

(* ===================================================================== *)
(** * Icons *)
(* ===================================================================== *)

Lemma glyph_size_total (size : Z) :
  1 <= size < int_bound ->
  exists g, Gen.glyph_size_of size = Ok g /\ 1 <= g <= size.
Proof.
  intros [Hlo Hhi]. pose proof (glyph_size_spec size Hlo) as H.
  destruct (Gen.glyph_size_of size) as [g|e].
  - exists g. split; [reflexivity|assumption].
  - lia.
Qed.

(** C10.  For an icon size of at least one pixel the glyph size
    [round(size * 0.78)] is computed whenever [size] converts to a float, and
    whenever it is computed it lies between 1 and [size]; the paste offset
    [(size - glyph_size) // 2] is then non-negative and the glyph, pasted
    there, ends within the canvas on both axes. *)
Theorem glyph_fits_icon (size : Z) :
  1 <= size ->
  (size < int_bound -> exists g, Gen.glyph_size_of size = Ok g) /\
  (forall g, Gen.glyph_size_of size = Ok g ->
     1 <= g <= size /\
     let offset := (size - g) / 2 in
     0 <= offset /\ offset + g <= size).
Proof.
  intros Hlo. split.
  - intros Hhi. destruct (glyph_size_total size) as (g & Hg & _); [lia|].
    exists g. exact Hg.
  - intros g Hg. pose proof (glyph_size_spec size Hlo) as H. rewrite Hg in H.
    split; [exact H|]. cbv zeta.
    pose proof (Z.div_pos (size - g) 2). 
    assert (2 * ((size - g) / 2) <= size - g) by (apply Z.mul_div_le; lia).
    lia.
Qed.

Lemma glyph_fits_icon_witness :
  1 <= 48 /\
  (48 < int_bound -> exists g, Gen.glyph_size_of 48 = Ok g) /\
  (forall g, Gen.glyph_size_of 48 = Ok g ->
     1 <= g <= 48 /\
     let offset := (48 - g) / 2 in
     0 <= offset /\ offset + g <= 48).
Proof. split; [lia|]. apply (glyph_fits_icon 48). lia. Defined.

Section Icon.

Variable parse : string -> Z -> Svg.SVG.


(** C4.  For a size from one pixel up to the bound of an image side: the
    glyph side is [round(size * 0.78)], between 1 and [size]; the background
    is the [size] x [size] blue rounded rectangle; and, when four times the
    glyph side is an image side too, the icon is that background on which the
    glyph is pasted, the glyph being the document rasterised at four times
    the glyph side and resized to the glyph side with the Lanczos filter; it
    is pasted at [(size - glyph_size) // 2] on both axes, with itself as
    mask; the icon is [size] x [size]; the margin after the glyph is the
    margin before it, or one pixel more; and a failure of the rasteriser is
    the failure of the icon. *)
Theorem render_icon_spec (svg_content : string) (size : Z) :
  1 <= size < side_bound ->
  exists glyph_size radius,
    bind (mul_float (Int size) (Float (S754_finite false 7025615418697974 (-53))))
         round = Ok glyph_size /\
    1 <= glyph_size <= size /\
    1 <= radius /\
    let bg := Pil.rounded_rectangle (Pil.new "RGBA" (size, size) (0, 0, 0, 0))
                (0, 0, size - 1, size - 1) radius (0, 132, 190, 255) in
    Gen.blue_rounded_rect size size = Ok bg /\
    (glyph_size * 4 < side_bound ->
     match Gen.render_svg parse svg_content (glyph_size * 4) with
     | Ok hi =>
         Pil.size hi = (glyph_size * 4, glyph_size * 4) /\
         let glyph := Pil.resize hi (glyph_size, glyph_size) Pil.LANCZOS in
         let offset := (size - glyph_size) / 2 in
         let icon := Pil.paste bg glyph (offset, offset) (Some glyph) in
         Gen.render_icon parse svg_content size = Ok icon /\
         Pil.size icon = (size, size) /\
         Pil.size glyph = (glyph_size, glyph_size) /\
         0 <= offset /\
         offset <= size - glyph_size - offset <= offset + 1
     | Raise e => Gen.render_icon parse svg_content size = Raise e
     end).
Proof.
  intros Hsize.
  assert (1 <= size < int_bound) as Hsize'
    by (unfold side_bound, int_bound in *; lia).
  destruct (glyph_size_total size Hsize') as (g & Hg & Hgb).
  destruct (blue_rounded_rect_returns size size) as (r & _ & Hbg);
    [rewrite Z.min_id; lia|].
  exists g, (Z.max 1 r). split; [exact Hg|]. split; [exact Hgb|].
  split; [lia|]. cbv zeta. split; [exact Hbg|]. intros _.
  unfold Gen.render_icon. rewrite Hbg, Hg. cbn [bind].
  destruct (Gen.render_svg parse svg_content (g * 4)) as [hi|e] eqn:Hsvg;
    cbn [bind]; [|reflexivity].
  split; [apply (render_svg_size parse svg_content _ _ Hsvg)|].
  split; [reflexivity|].
  split; [reflexivity|]. split; [reflexivity|].
  pose proof (Z.mod_pos_bound (size - g) 2 ltac:(lia)).
  pose proof (Z.div_mod (size - g) 2 ltac:(lia)). lia.
Qed.

End Icon.

Lemma render_icon_witness :
  1 <= 64 < side_bound /\
  exists glyph_size radius,
    bind (mul_float (Int 64) (Float (S754_finite false 7025615418697974 (-53))))
         round = Ok glyph_size /\
    1 <= glyph_size <= 64 /\
    1 <= radius /\
    let bg := Pil.rounded_rectangle (Pil.new "RGBA" (64, 64) (0, 0, 0, 0))
                (0, 0, 64 - 1, 64 - 1) radius (0, 132, 190, 255) in
    Gen.blue_rounded_rect 64 64 = Ok bg /\
    (glyph_size * 4 < side_bound ->
     match Gen.render_svg Sample.parse "<svg/>" (glyph_size * 4) with
     | Ok hi =>
         Pil.size hi = (glyph_size * 4, glyph_size * 4) /\
         let glyph := Pil.resize hi (glyph_size, glyph_size) Pil.LANCZOS in
         let offset := (64 - glyph_size) / 2 in
         let icon := Pil.paste bg glyph (offset, offset) (Some glyph) in
         Gen.render_icon Sample.parse "<svg/>" 64 = Ok icon /\
         Pil.size icon = (64, 64) /\
         Pil.size glyph = (glyph_size, glyph_size) /\
         0 <= offset /\
         offset <= 64 - glyph_size - offset <= offset + 1
     | Raise e => Gen.render_icon Sample.parse "<svg/>" 64 = Raise e
     end).
Proof.
  assert (1 <= 64 < side_bound) as H by (unfold side_bound; lia).
  split; [exact H|]. apply (render_icon_spec Sample.parse "<svg/>" 64 H).
Defined.

(* ===================================================================== *)
(** * The run *)
(* ===================================================================== *)

(** ** Traces only grow *)

Section Traces.

Variable P : Gen.Event -> Prop.






End Traces.

Section Run.

Variable DIR : string.
Variable read_text : string -> string.
Variable path_exists : string -> bool.
Variable parse : string -> Z -> Svg.SVG.
Variable textbbox : Z * Z -> string -> Pil.FreeTypeFont -> Z * Z * Z * Z.



(** ** The list of icons *)





End Run.

(** ** Where [RuntimeError] can come from *)

Lemma nre_bind {A B : Type} (c : result A) (k : A -> result B) :
  no_runtime_error c -> (forall a, no_runtime_error (k a)) ->
  no_runtime_error (bind c k).
Proof. destruct c as [a|e]; cbn [bind]; auto. Qed.

Lemma nre_int_to_float (n : Z) : no_runtime_error (int_to_float n).
Proof. unfold int_to_float. destruct (binary_normalize _ _ _ _ _); exact I. Qed.

Lemma nre_to_float (a : number) : no_runtime_error (to_float a).
Proof. destruct a; [apply nre_int_to_float|exact I]. Qed.

Lemma nre_round (x : float) : no_runtime_error (round x).
Proof. destruct x; exact I. Qed.

Lemma nre_trunc (x : float) : no_runtime_error (trunc x).
Proof. destruct x; exact I. Qed.

Lemma nre_mul_float (a b : number) : no_runtime_error (mul_float a b).
Proof.
  unfold mul_float. apply nre_bind; [apply nre_to_float|intros x].
  apply nre_bind; [apply nre_to_float|intros y]. exact I.
Qed.

Lemma nre_truediv (a b : number) : no_runtime_error (truediv a b).
Proof.
  assert (forall x y, no_runtime_error (float_truediv x y)) as Hf.
  { intros x y. unfold float_truediv. destruct (is_zero y); exact I. }
  assert (forall m n, no_runtime_error (int_truediv m n)) as Hi.
  { intros m n. unfold int_truediv. destruct (n =? 0); [exact I|].
    destruct m; [exact I| |]; destruct (fdiv _ _); exact I. }
  destruct a as [m|x], b as [n|y]; cbn [truediv]; [apply Hi| | |];
    (apply nre_bind; [apply nre_to_float|intros ?];
     apply nre_bind; [apply nre_to_float|intros ?]; apply Hf).
Qed.

Lemma nre_color_to_rgba (c : option Svg.Color) :
  no_runtime_error (Gen.color_to_rgba c).
Proof.
  destruct c as [[|red green blue opacity]|]; cbn [Gen.color_to_rgba]; try exact I.
  apply nre_bind; [apply nre_mul_float|intros o].
  apply nre_bind; [apply nre_trunc|intros a]. exact I.
Qed.

Lemma nre_draw_element (scale : float) (canvas : AggDraw.Canvas)
    (elem : Svg.Element) :
  no_runtime_error (Gen.draw_element scale canvas elem).
Proof.
  destruct elem as [shape|]; cbn [Gen.draw_element]; [|exact I].
  apply nre_bind; [apply nre_color_to_rgba|intros [[[[r g] b] a]|]]; exact I.
Qed.

Lemma nre_draw_elements (scale : float) (elems : list Svg.Element) :
  forall canvas, no_runtime_error (Gen.draw_elements scale canvas elems).
Proof.
  induction elems as [|elem elems IH]; intros canvas; cbn [Gen.draw_elements].
  - exact I.
  - apply nre_bind; [apply nre_draw_element|exact IH].
Qed.

Lemma nre_blue_rounded_rect (w h : Z) : no_runtime_error (Gen.blue_rounded_rect w h).
Proof.
  unfold Gen.blue_rounded_rect.
  apply nre_bind; [apply nre_mul_float|intros x].
  apply nre_bind; [apply nre_round|intros r]. exact I.
Qed.

Lemma nre_glyph_size_of (size : Z) : no_runtime_error (Gen.glyph_size_of size).
Proof.
  unfold Gen.glyph_size_of. apply nre_bind; [apply nre_mul_float|apply nre_round].
Qed.

Section NoRuntimeError.

Variable DIR : string.
Variable read_text : string -> string.
Variable path_exists : string -> bool.
Variable parse : string -> Z -> Svg.SVG.
Variable textbbox : Z * Z -> string -> Pil.FreeTypeFont -> Z * Z * Z * Z.

Lemma nre_render_svg (svg_content : string) (size : Z) :
  no_runtime_error (Gen.render_svg parse svg_content size).
Proof.
  unfold Gen.render_svg. apply nre_bind.
  - destruct (Svg.width _) as [w|]; [|exact I].
    destruct (truthy w); [|exact I].
    apply nre_bind; [apply nre_to_float|intros x; exact I].
  - intros vw. apply nre_bind; [apply nre_truediv|intros scale].
    apply nre_bind; [apply nre_draw_elements|intros canvas; exact I].
Qed.

Lemma nre_render_icon (svg_content : string) (size : Z) :
  no_runtime_error (Gen.render_icon parse svg_content size).
Proof.
  unfold Gen.render_icon.
  apply nre_bind; [apply nre_blue_rounded_rect|intros bg].
  apply nre_bind; [apply nre_glyph_size_of|intros g].
  apply nre_bind; [apply nre_render_svg|intros hi]. exact I.
Qed.

Lemma nre_render_banner (svg_content : string) (font : Pil.FreeTypeFont) :
  no_runtime_error (Gen.render_banner parse textbbox svg_content font).
Proof.
  unfold Gen.render_banner.
  apply nre_bind; [apply nre_render_svg|intros hi].
  destruct (textbbox _ _ _) as [[[b0 b1] b2] b3].
  apply nre_bind; [apply nre_blue_rounded_rect|intros bg]. exact I.
Qed.

Lemma nre_comprehension (svg_content : string) (sizes : list Z) :
  no_runtime_error (Gen.comprehension (Gen.render_icon parse svg_content) sizes).
Proof.
  induction sizes as [|s sizes IH]; cbn [Gen.comprehension]; [exact I|].
  apply nre_bind; [apply nre_render_icon|intros icon].
  apply nre_bind; [exact IH|intros icons; exact I].
Qed.

Lemma nre_write_ico (svg_content : string) (tr : list Gen.Event) :
  no_runtime_error (snd (Gen.write_ico DIR parse svg_content tr)).
Proof.
  unfold Gen.write_ico, Gen.io_bind, Gen.eval.
  pose proof (nre_comprehension svg_content Gen.ICO_SIZES) as H.
  destruct (Gen.comprehension _ _) as [[|first others]|e]; cbn; auto.
Qed.

Lemma nre_for_each_pngs (svg_content : string) (sizes : list Z) :
  forall tr,
  no_runtime_error
    (snd (Gen.for_each sizes (fun size =>
       let path := Gen.in_dir DIR ("bloom" ++ str_int size ++ ".png") in
       Gen.io_bind (Gen.eval (Gen.render_icon parse svg_content (size * 4)))
         (fun icon =>
          Gen.io_bind (Gen.save (Pil.resize icon (size, size) Pil.LANCZOS)
                         path "PNG" [] true)
            (fun _ => Gen.print ("Written " ++ path)))) tr)).
Proof.
  induction sizes as [|s sizes IH]; intros tr; cbn [Gen.for_each]; [exact I|].
  unfold Gen.io_bind at 1. unfold Gen.io_bind at 1. unfold Gen.eval at 1.
  pose proof (nre_render_icon svg_content (s * 4)) as H.
  destruct (Gen.render_icon parse svg_content (s * 4)) as [icon|e]; [|exact H].
  cbn. apply IH.
Qed.

Lemma nre_write_pngs (svg_content : string) (tr : list Gen.Event) :
  no_runtime_error (snd (Gen.write_pngs DIR parse svg_content tr)).
Proof. apply nre_for_each_pngs. Qed.

(** The banner step ends by [RuntimeError] only through the font check. *)
Lemma write_banner_runtime_error (svg_content : string) (tr tr' : list Gen.Event)
    (msg : string) :
  Gen.write_banner DIR path_exists parse textbbox svg_content tr
  = (tr', Raise (RuntimeError msg)) ->
  Gen.first_existing path_exists Gen.BANNER_FONT_PATHS = None /\
  RuntimeError msg = Gen.font_error.
Proof.
  unfold Gen.write_banner.
  destruct (Gen.first_existing path_exists Gen.BANNER_FONT_PATHS) as [p|].
  - unfold Gen.io_bind, Gen.eval.
    pose proof (nre_render_banner svg_content
                  {| Pil.font_file := p; Pil.font_size := Gen.BANNER_FONT_SIZE |}) as H.
    destruct (Gen.render_banner _ _ _ _) as [banner|e]; cbn.
    + discriminate.
    + intros [= _ ->]. contradiction.
  - unfold Gen.eval. intros [= _ <-]. split; reflexivity.
Qed.

Lemma first_existing_first (before after : list string) (p : string) :
  (forall q, In q before -> path_exists q = false) ->
  path_exists p = true ->
  Gen.first_existing path_exists (before ++ p :: after) = Some p.
Proof.
  intros Hb Hp. unfold Gen.first_existing.
  induction before as [|q before IH]; cbn [app find].
  - rewrite Hp. reflexivity.
  - rewrite (Hb q (or_introl eq_refl)). apply IH.
    intros q' Hin. apply Hb. right. exact Hin.
Qed.

Lemma first_existing_none (paths : list string) :
  (forall q, In q paths -> path_exists q = false) ->
  Gen.first_existing path_exists paths = None.
Proof.
  intros Hb. unfold Gen.first_existing.
  induction paths as [|q paths IH]; cbn [find]; [reflexivity|].
  rewrite (Hb q (or_introl eq_refl)). apply IH.
  intros q' Hin. apply Hb. right. exact Hin.
Qed.

(** C2.  The font is the first candidate that exists, so the last one when
    only the last exists.  When none exists the banner step, and with it the
    run once the icons and PNGs are written, ends by the [RuntimeError] whose
    message lists every candidate; and a run ends by a [RuntimeError] in no
    other way. *)
Theorem font_resolution :
  (forall before p after,
     (forall q, In q before -> path_exists q = false) ->
     path_exists p = true ->
     Gen.first_existing path_exists (before ++ p :: after) = Some p) /\
  (forall others last,
     (forall q, In q others -> path_exists q = false) ->
     path_exists last = true ->
     Gen.first_existing path_exists (others ++ [last]) = Some last) /\
  ((forall q, In q Gen.BANNER_FONT_PATHS -> path_exists q = false) ->
   forall svg_content tr,
     Gen.write_banner DIR path_exists parse textbbox svg_content tr
     = (tr, Raise Gen.font_error) /\
     (forall tr2,
        Gen.io_bind (Gen.write_ico DIR parse (read_text (Gen.SVG_PATH DIR)))
          (fun _ => Gen.write_pngs DIR parse (read_text (Gen.SVG_PATH DIR))) tr
        = (tr2, Ok tt) ->
        Gen.main DIR read_text path_exists parse textbbox tr
        = (tr2, Raise Gen.font_error))) /\
  (exists msg, Gen.font_error = RuntimeError msg /\
     forall q, In q Gen.BANNER_FONT_PATHS -> is_substring q msg = true) /\
  (forall tr tr' msg,
     Gen.main DIR read_text path_exists parse textbbox tr
     = (tr', Raise (RuntimeError msg)) ->
     Gen.first_existing path_exists Gen.BANNER_FONT_PATHS = None /\
     RuntimeError msg = Gen.font_error).
Proof.
  split; [intros before p after; apply first_existing_first|].
  split; [intros others last; apply first_existing_first|].
  split; [|split].
  - intros Hnone svg_content tr.
    pose proof (first_existing_none _ Hnone) as Hf. split.
    + unfold Gen.write_banner. rewrite Hf. reflexivity.
    + intros tr2. unfold Gen.main, Gen.io_bind.
      destruct (Gen.write_ico _ _ _ tr) as [tr1 [[]|e]]; [|discriminate].
      destruct (Gen.write_pngs _ _ _ tr1) as [tr2' [[]|e]]; [|discriminate].
      intros [= ->]. unfold Gen.write_banner. rewrite Hf. reflexivity.
  - eexists. split; [reflexivity|].
    intros q Hin. cbn in Hin.
    destruct Hin as [<-|[<-|[<-|[]]]]; vm_compute; reflexivity.
  - intros tr tr' msg. unfold Gen.main, Gen.io_bind.
    pose proof (nre_write_ico (read_text (Gen.SVG_PATH DIR)) tr) as H1.
    destruct (Gen.write_ico _ _ _ tr) as [tr1 [[]|e]]; cbn [snd] in H1.
    + pose proof (nre_write_pngs (read_text (Gen.SVG_PATH DIR)) tr1) as H2.
      destruct (Gen.write_pngs _ _ _ tr1) as [tr2 [[]|e]]; cbn [snd] in H2.
      * apply write_banner_runtime_error.
      * intros [= _ ->]. contradiction.
    + intros [= _ ->]. contradiction.
Qed.

End NoRuntimeError.

(* ===================================================================== *)
(** * The statements on the sample environment *)
(* ===================================================================== *)

Lemma sample_glyph_rasterised :
  exists hi, Gen.render_svg Sample.parse "<svg/>" (Gen.BANNER_LOGO_H * 4) = Ok hi.
Proof.
  destruct (Gen.render_svg Sample.parse "<svg/>" (Gen.BANNER_LOGO_H * 4))
    as [hi|e] eqn:Hr.
  - exists hi. reflexivity.
  - vm_compute in Hr. discriminate Hr.
Defined.

Lemma banner_canvas_dimensions_witness :
  exists banner,
    Gen.render_banner Sample.parse Sample.textbbox "<svg/>"
      {| Pil.font_file := "/System/Library/Fonts/Helvetica.ttc"; Pil.font_size := 72 |}
    = Ok banner /\
    Pil.size banner = (72 + (163 - 0) + 2 * 16, Z.max 72 (70 - 17) + 2 * 16).
Proof.
  destruct sample_glyph_rasterised as [hi Hhi].
  apply (banner_canvas_dimensions Sample.parse Sample.textbbox "<svg/>" _ hi Hhi).
  vm_compute. reflexivity.
Defined.

Lemma banner_text_position_witness :
  exists bg glyph gy ty,
    Gen.render_banner Sample.parse Sample.textbbox "<svg/>"
      {| Pil.font_file := "/System/Library/Fonts/Helvetica.ttc"; Pil.font_size := 72 |}
    = Ok (Pil.text (Pil.paste bg glyph (16, gy) (Some glyph))
            (16 + 72, ty) "loom"
            {| Pil.font_file := "/System/Library/Fonts/Helvetica.ttc"; Pil.font_size := 72 |}
            (255, 255, 255, 255)) /\
    Pil.size glyph = (72, 72) /\
    16 + fst (Pil.size glyph) = 16 + 72 /\
    ty = (104 - 16) - 53 - 17 /\
    ty + 17 + 53 = 104 - 16 /\
    ty + 70 = 104 - 16.
Proof.
  destruct sample_glyph_rasterised as [hi Hhi].
  apply (banner_text_position Sample.parse Sample.textbbox "<svg/>" _ hi Hhi).
  vm_compute. reflexivity.
Defined.



Lemma font_resolution_witness :
  Gen.first_existing Sample.only_last
    (["C:/Windows/Fonts/segoeuib.ttf"%string;
      "/usr/share/fonts/truetype/dejavu/DejaVuSans-Bold.ttf"%string]
     ++ ["/System/Library/Fonts/Helvetica.ttc"%string])%list
  = Some "/System/Library/Fonts/Helvetica.ttc"%string /\
  Gen.write_banner Sample.DIR Sample.no_font Sample.parse Sample.textbbox
    "<svg/>" []
  = ([], Raise Gen.font_error).
Proof.
  split.
  - apply (font_resolution Sample.DIR Sample.read_text Sample.only_last
             Sample.parse Sample.textbbox).
    + intros q [<-|[<-|[]]]; reflexivity.
    + reflexivity.
  - apply (font_resolution Sample.DIR Sample.read_text Sample.no_font
             Sample.parse Sample.textbbox).
    intros q _. reflexivity.
Defined.

(* ===================================================================== *)
(** * Further properties of the script *)
(* ===================================================================== *)

(** ** The path of a shape *)

(** X1.  The path of a shape has one call per segment, in the order of the
    segments, and each call leaves the pen at the scaled end point of its
    segment; a closing segment is the only one that names no point. *)
Theorem path_follows_segments (shape : Svg.Shape) (scale : float) :
  List.length (Gen.shape_to_aggpath shape scale)
  = List.length (Svg.segments shape) /\
  map call_end (Gen.shape_to_aggpath shape scale)
  = map (segment_end scale) (Svg.segments shape).
Proof.
  rewrite shape_to_aggpath_map. split; [apply length_map|].
  rewrite map_map. apply map_ext. intros seg. destruct seg; reflexivity.
Qed.

(** ** What the rasteriser is asked to draw *)

Lemma draw_element_pending (scale : float) (canvas canvas' : AggDraw.Canvas)
    (elem : Svg.Element) :
  Gen.draw_element scale canvas elem = Ok canvas' ->
  exists reqs,
    AggDraw.pending canvas' = (AggDraw.pending canvas ++ reqs)%list /\
    map request_summary reqs
    = map (fun l => (Gen.shape_to_aggpath (fst l) scale, None, Some (snd l)))
          (layers [elem]).
Proof.
  destruct elem as [shape|]; cbn [Gen.draw_element layers].
  - unfold Gen.color_to_rgba.
    destruct (Svg.fill shape) as [[|red green blue opacity]|].
    + intros [= <-]. exists []. rewrite app_nil_r. split; reflexivity.
    + destruct (mul_float (Float opacity) (Int 255)) as [o|]; cbn [bind];
        [|discriminate].
      destruct (trunc o) as [a|]; cbn [bind]; [|discriminate].
      intros [= <-]. eexists. split; reflexivity.
    + intros [= <-]. exists []. rewrite app_nil_r. split; reflexivity.
  - intros [= <-]. exists []. rewrite app_nil_r. split; reflexivity.
Qed.

Lemma layers_cons (elem : Svg.Element) (elems : list Svg.Element) :
  layers (elem :: elems) = (layers [elem] ++ layers elems)%list.
Proof.
  destruct elem as [shape|]; cbn [layers]; [|reflexivity].
  destruct (Svg.fill shape) as [[|? ? ? ?]|]; reflexivity.
Qed.

Lemma draw_elements_pending (scale : float) (elems : list Svg.Element) :
  forall canvas canvas',
  Gen.draw_elements scale canvas elems = Ok canvas' ->
  exists reqs,
    AggDraw.pending canvas' = (AggDraw.pending canvas ++ reqs)%list /\
    map request_summary reqs
    = map (fun l => (Gen.shape_to_aggpath (fst l) scale, None, Some (snd l)))
          (layers elems).
Proof.
  induction elems as [|elem elems IH]; intros canvas canvas';
    cbn [Gen.draw_elements].
  - intros [= <-]. exists []. rewrite app_nil_r. split; reflexivity.
  - destruct (Gen.draw_element scale canvas elem) as [canvas1|] eqn:H1;
      cbn [bind]; [|discriminate].
    intros H2.
    destruct (draw_element_pending _ _ _ _ H1) as (r1 & Hp1 & Hs1).
    destruct (IH _ _ H2) as (r2 & Hp2 & Hs2).
    exists (r1 ++ r2)%list. split.
    + rewrite Hp2, Hp1, app_assoc. reflexivity.
    + rewrite layers_cons, !map_app, Hs1, Hs2. reflexivity.
Qed.

(** X2.  When the rasteriser returns, its image is a transparent
    [size] x [size] canvas on which were flushed, in document order, one
    request per shape that has a fill colour: the path of that shape at one
    common scale, no pen, and a brush of the three channels of the fill.
    Elements that are not shapes and shapes without a fill contribute
    nothing. *)
Theorem render_svg_requests (parse : string -> Z -> Svg.SVG)
    (svg_content : string) (size : Z) (img : Pil.Image) :
  Gen.render_svg parse svg_content size = Ok img ->
  exists scale reqs,
    img = Pil.flushed (Pil.new "RGBA" (size, size) (0, 0, 0, 0)) reqs /\
    map request_summary reqs
    = map (fun l => (Gen.shape_to_aggpath (fst l) scale, None, Some (snd l)))
          (layers (Svg.elements (parse svg_content size))) /\
    List.length reqs
    = List.length (layers (Svg.elements (parse svg_content size))).
Proof.
  unfold Gen.render_svg.
  destruct (match Svg.width (parse svg_content size) with
            | Some w => _ | None => _ end) as [vw|]; cbn [bind]; [|discriminate].
  destruct (truediv (Int size) vw) as [scale|]; cbn [bind]; [|discriminate].
  destruct (Gen.draw_elements scale _ _) as [canvas|] eqn:Hd; cbn [bind];
    [|discriminate].
  intros [= <-].
  destruct (draw_elements_pending _ _ _ _ Hd) as (reqs & Hp & Hs).
  pose proof (draw_elements_image _ _ _ _ Hd) as Hi.
  exists scale, reqs. unfold AggDraw.flush. rewrite Hi, Hp.
  split; [reflexivity|]. split; [exact Hs|].
  apply (f_equal (@List.length _)) in Hs. rewrite !length_map in Hs. exact Hs.
Qed.

(** ** The scale of the rasteriser *)

(** [n / n] on a non-zero [int] is the float 1.0, however large [n] is. *)
Lemma int_truediv_self (n : Z) : n <> 0 -> int_truediv n n = Ok float_one.
Proof.
  intros Hn. unfold int_truediv.
  destruct (Z.eqb_spec n 0) as [|_]; [contradiction|].
  assert (forall s m, fdiv (S754_finite s m 0) (S754_finite s m 0) = float_one)
    as Hdiv.
  { intros s m. unfold fdiv. cbn [SFdiv]. unfold SFdiv_core_binary.
    rewrite !Z.add_0_r, !Z.sub_diag.
    change (Z.min (fexp prec emax 0) 0) with (-53).
    change (0 - -53) with 53.
    cbv match. rewrite Z.shiftl_mul_pow2 by lia.
    assert (Z.div_eucl (Zpos m * 2 ^ 53) (Zpos m) = (2 ^ 53, 0)) as ->.
    { pose proof (Z.div_mul (2 ^ 53) (Zpos m) ltac:(lia)) as Hq.
      pose proof (Z.mod_mul (2 ^ 53) (Zpos m) ltac:(lia)) as Hr.
      rewrite (Z.mul_comm (2 ^ 53)) in Hq, Hr.
      unfold Z.div, Z.modulo in Hq, Hr.
      destruct (Z.div_eucl (Zpos m * 2 ^ 53) (Zpos m)) as [q r].
      cbn [fst snd] in Hq, Hr. subst. reflexivity. }
    assert (new_location (Zpos m) 0 = loc_Exact) as ->.
    { unfold new_location, new_location_even, new_location_odd.
      destruct (Z.even (Zpos m)); reflexivity. }
    destruct s; reflexivity. }
  destruct n as [|m|m]; [contradiction| |]; cbn [Z.abs Z.to_pos];
    rewrite Hdiv; reflexivity.
Qed.

Lemma int_to_float_nonzero (n : Z) (x : float) :
  n <> 0 -> int_to_float n = Ok x -> is_zero x = false.
Proof.
  intros Hn. unfold int_to_float.
  destruct n as [|m|m]; [contradiction| |]; cbn [binary_normalize].
  - pose proof (binary_round_int false m) as H.
    destruct (binary_round prec emax false m 0); try contradiction;
      [discriminate|]. intros [= <-]. reflexivity.
  - pose proof (binary_round_int true m) as H.
    destruct (binary_round prec emax true m 0); try contradiction;
      [discriminate|]. intros [= <-]. reflexivity.
Qed.

Lemma to_float_truthy (w : number) (x : float) :
  truthy w = true -> to_float w = Ok x -> is_zero x = false.
Proof.
  destruct w as [n|y]; cbn [truthy to_float].
  - intros Hn. apply int_to_float_nonzero.
    destruct (Z.eqb_spec n 0); [discriminate|assumption].
  - intros Hy [= <-]. apply negb_true_iff. exact Hy.
Qed.

(** A computation of the script that does not end by [ZeroDivisionError]. *)
Lemma draw_elements_no_zero_division (scale : float) (elems : list Svg.Element) :
  forall canvas,
  Gen.draw_elements scale canvas elems <> Raise ZeroDivisionError.
Proof.
  assert (forall n, int_to_float n <> Raise ZeroDivisionError) as Hi.
  { intros n. unfold int_to_float.
    destruct (binary_normalize _ _ _ _ _); discriminate. }
  assert (forall c, Gen.color_to_rgba c <> Raise ZeroDivisionError) as Hc.
  { intros [[|red green blue opacity]|]; cbn [Gen.color_to_rgba]; try discriminate.
    unfold mul_float. cbn [to_float bind].
    specialize (Hi 255). destruct (int_to_float 255) as [y|e]; cbn [bind];
      [|congruence].
    destruct (fmul opacity y); cbn [trunc bind]; discriminate. }
  induction elems as [|elem elems IH]; intros canvas; cbn [Gen.draw_elements];
    [discriminate|].
  destruct elem as [shape|]; cbn [Gen.draw_element bind]; [|apply IH].
  specialize (Hc (Svg.fill shape)).
  destruct (Gen.color_to_rgba (Svg.fill shape)) as [[[[[r g] b] a]|]|e];
    cbn [bind]; [apply IH|apply IH|congruence].
Qed.

Lemma bind_ok_raise {A B : Type} (c : result A) (f : A -> B) (e : exn) :
  bind c (fun a => Ok (f a)) = Raise e -> c = Raise e.
Proof. destruct c; cbn [bind]; [discriminate|intros [= ->]; reflexivity]. Qed.

Section Scale.

Variable parse : string -> Z -> Svg.SVG.

(** X3.  The rasteriser ends by [ZeroDivisionError] exactly when it is asked
    for size 0 on a document whose width is missing or zero: the scale is
    then [0 / 0].  With a width, or with any other size, the division
    succeeds. *)
Theorem render_svg_zero_division (svg_content : string) (size : Z) :
  Gen.render_svg parse svg_content size = Raise ZeroDivisionError <->
  size = 0 /\ no_width (parse svg_content size) = true.
Proof.
  unfold Gen.render_svg, no_width.
  destruct (Svg.width (parse svg_content size)) as [w|].
  - destruct (truthy w) eqn:Hw; cbn [negb].
    + split; [|intros [_ H]; discriminate].
      pose proof (to_float_truthy w) as Hx.
      destruct (to_float w) as [x|e] eqn:Hf; cbn [bind].
      * specialize (Hx x Hw eq_refl).
        unfold truediv, float_truediv. cbn [to_float].
        destruct (int_to_float size) as [y|e] eqn:Hy; cbn [bind].
        -- rewrite Hx. cbn [bind]. intros H. apply bind_ok_raise in H.
           apply draw_elements_no_zero_division in H. contradiction.
        -- unfold int_to_float in Hy.
           destruct (binary_normalize _ _ _ _ _); congruence.
      * destruct w as [n|y]; cbn [to_float] in Hf; [|discriminate].
        unfold int_to_float in Hf.
        destruct (binary_normalize _ _ _ _ _); congruence.
    + cbn [bind truediv]. destruct (Z.eq_dec size 0) as [->|Hs].
      * split; [intros _; split; reflexivity|reflexivity].
      * rewrite (int_truediv_self size Hs). cbn [bind].
        split; [|intros [? _]; contradiction].
        intros H. apply bind_ok_raise in H.
        apply draw_elements_no_zero_division in H. contradiction.
  - cbn [bind truediv]. destruct (Z.eq_dec size 0) as [->|Hs].
    + split; [intros _; split; reflexivity|reflexivity].
    + rewrite (int_truediv_self size Hs). cbn [bind].
      split; [|intros [? _]; contradiction].
      intros H. apply bind_ok_raise in H.
      apply draw_elements_no_zero_division in H. contradiction.
Qed.

(** X4.  On a document whose width is missing or zero, a rasterisation at a
    size from one pixel up to the bound of an image side draws every shape at
    the scale 1.0 exactly, whatever the size: the coordinates are taken as
    the parser left them. *)
Theorem render_svg_unit_scale (svg_content : string) (size : Z) :
  no_width (parse svg_content size) = true -> 1 <= size < side_bound ->
  Gen.render_svg parse svg_content size
  = bind (Gen.draw_elements float_one
            (AggDraw.Draw (Pil.new "RGBA" (size, size) (0, 0, 0, 0)))
            (Svg.elements (parse svg_content size)))
         (fun canvas => Ok (AggDraw.flush canvas)).
Proof.
  unfold Gen.render_svg, no_width. intros Hw Hsize.
  assert (size <> 0) as Hs by lia.
  destruct (Svg.width (parse svg_content size)) as [w|].
  - apply negb_true_iff in Hw. rewrite Hw. cbn [bind truediv].
    rewrite (int_truediv_self size Hs). reflexivity.
  - cbn [bind truediv]. rewrite (int_truediv_self size Hs). reflexivity.
Qed.

End Scale.

(** ** The alpha of a fill *)

Lemma Zrange_In (lo : Z) (n : nat) (a : Z) :
  lo <= a < lo + Z.of_nat n -> In a (Zrange lo n).
Proof.
  revert lo. induction n as [|n IH]; intros lo H; cbn [Zrange].
  - cbn in H. lia.
  - destruct (Z.eq_dec lo a) as [->|Hne]; [left; reflexivity|].
    right. apply IH. lia.
Qed.

Lemma color_to_rgba_channels (red green blue : Z) (opacity : float) :
  Gen.color_to_rgba (Some (Svg.ColorValue red green blue opacity))
  = bind (Gen.color_to_rgba (Some (Svg.ColorValue 0 0 0 opacity))) (fun c =>
      Ok (option_map (fun '(_, _, _, alpha) => (red, green, blue, alpha)) c)).
Proof.
  cbn [Gen.color_to_rgba].
  destruct (mul_float (Float opacity) (Int 255)) as [o|]; cbn [bind]; [|reflexivity].
  destruct (trunc o); reflexivity.
Qed.

(** X5.  No alpha level is lost in the conversion: for each of the 256
    levels [a], a colour whose opacity is the float [a / 255.0] gets back the
    alpha [a], the three channels being passed on as they are. *)
Theorem alpha_levels_preserved (red green blue a : Z) :
  0 <= a <= 255 ->
  exists opacity,
    truediv (Int a) (Float float_255) = Ok opacity /\
    Gen.color_to_rgba (Some (Svg.ColorValue red green blue opacity))
    = Ok (Some (red, green, blue, a)).
Proof.
  intros Ha.
  assert (forallb (fun a => match alpha_of_level a with
                            | Ok (Some a') => a' =? a
                            | _ => false
                            end) (Zrange 0 256) = true) as Hall
    by (vm_compute; reflexivity).
  rewrite forallb_forall in Hall.
  specialize (Hall a (Zrange_In 0 256 a ltac:(lia))).
  unfold alpha_of_level in Hall.
  destruct (truediv (Int a) (Float float_255)) as [o|]; cbn [bind] in Hall;
    [|discriminate].
  exists o. split; [reflexivity|].
  rewrite color_to_rgba_channels.
  destruct (Gen.color_to_rgba (Some (Svg.ColorValue 0 0 0 o)))
    as [[[[[r g] b] a']|]|]; cbn [bind option_map] in Hall |- *;
    try discriminate.
  apply Z.eqb_eq in Hall. subst a'. reflexivity.
Qed.

Lemma alpha_levels_preserved_witness :
  0 <= 128 <= 255 /\
  exists opacity,
    truediv (Int 128) (Float float_255) = Ok opacity /\
    Gen.color_to_rgba (Some (Svg.ColorValue 255 255 255 opacity))
    = Ok (Some (255, 255, 255, 128)).
Proof. split; [lia|]. apply (alpha_levels_preserved 255 255 255 128). lia. Defined.

(** X6.  For an opacity that is zero or a normal float in (0, 1], the
    conversion returns, and with an alpha between 0 and 255. *)
Theorem alpha_in_byte_range (red green blue : Z) (opacity : float) :
  unit_opacity opacity ->
  exists a,
    Gen.color_to_rgba (Some (Svg.ColorValue red green blue opacity))
    = Ok (Some (red, green, blue, a)) /\
    0 <= a <= 255.
Proof.
  intros Hx. cbn [Gen.color_to_rgba]. unfold mul_float. cbn [to_float bind].
  change (int_to_float 255) with (Ok float_255). cbn [bind].
  destruct opacity as [s|s| |[|] mx ex]; try contradiction.
  - exists 0. split; [reflexivity|lia].
  - destruct Hx as (Hmx & Hex & Hle).
    assert (ex <= -52) as Hex52.
    { destruct (Z_le_gt_dec ex (-52)) as [|Hgt]; [assumption|exfalso].
      assert (2 ^ (- ex) < 2 ^ 52); [|lia].
      destruct (Z_lt_le_dec (- ex) 0) as [Hneg|Hpos].
      - rewrite Z.pow_neg_r by assumption. reflexivity.
      - apply Z.pow_lt_mono_r; lia. }
    unfold float_255.
    destruct (fmul_finite false false mx 8972014882652160 ex (-45))
      as (k & Hk & HP & ->); [assumption|
        change (2 ^ 52) with 4503599627370496;
        change (2 ^ 53) with 9007199254740992; lia|lia|].
    set (P := Zpos mx * 8972014882652160) in *.
    set (M1 := round_half_even_div P (2 ^ k)).
    assert (0 < 2 ^ k) as Hpk by (apply Z.pow_pos_nonneg; lia).
    set (b := 2 ^ (- (ex + -45 + k))).
    assert (0 < b) as Hb by (apply Z.pow_pos_nonneg; lia).
    assert (b * 2 ^ k = 2 ^ 45 * 2 ^ (- ex)) as Hbk.
    { unfold b. rewrite <- !Z.pow_add_r by lia. f_equal. lia. }
    assert (2 ^ 52 <= M1 <= 255 * b) as [HM1lo HM1hi].
    { split; [apply rhe_ge; lia|].
      apply rhe_le; [assumption|]. unfold P.
      replace (255 * b * 2 ^ k) with (255 * (2 ^ 45 * 2 ^ (- ex))) by lia.
      change 8972014882652160 with (255 * 2 ^ 45). nia. }
    assert (ex + -45 + k < 0) as Hneg by lia.
    unfold carry. destruct (Z.eqb_spec M1 (2 ^ 53)) as [Heq|Hne].
    + destruct (Z.leb_spec (ex + -45 + k + 1) 971); [|lia].
      cbn [trunc bind cond_Zopp xorb].
      destruct (Z.leb_spec 0 (ex + -45 + k + 1)); [lia|].
      eexists. split; [reflexivity|].
      rewrite Z2Pos.id by reflexivity.
      assert (b = 2 * 2 ^ (- (ex + -45 + k + 1))) as Hb2.
      { unfold b. rewrite <- Z.pow_succ_r by lia. f_equal. lia. }
      set (b' := 2 ^ (- (ex + -45 + k + 1))) in *.
      assert (0 < b') by (apply Z.pow_pos_nonneg; lia).
      split; [apply Z.div_pos; lia|].
      apply Z.div_le_upper_bound; [assumption|].
      change (2 ^ 53) with (2 * 2 ^ 52) in Heq. lia.
    + destruct (Z.leb_spec (ex + -45 + k) 971); [|lia].
      cbn [trunc bind cond_Zopp xorb].
      destruct (Z.leb_spec 0 (ex + -45 + k)); [lia|].
      eexists. split; [reflexivity|].
      rewrite Z2Pos.id by lia. fold b.
      split; [apply Z.div_pos; lia|].
      apply Z.div_le_upper_bound; [assumption|]. lia.
Qed.

Lemma alpha_in_byte_range_witness :
  unit_opacity (S754_finite false 4521260802379792 (-53)) /\
  exists a,
    Gen.color_to_rgba
      (Some (Svg.ColorValue 0 132 190 (S754_finite false 4521260802379792 (-53))))
    = Ok (Some (0, 132, 190, a)) /\
    0 <= a <= 255.
Proof.
  assert (unit_opacity (S754_finite false 4521260802379792 (-53))) as H
    by (cbn; repeat split; vm_compute; discriminate).
  split; [exact H|]. apply (alpha_in_byte_range 0 132 190 _ H).
Defined.

(** ** The corner radius against the side *)

Lemma radius_finite (n : Z) (F : positive) (ef : Z) :
  2 <= n -> approx n (Zpos F) ef ->
  exists r,
    round (fmul (S754_finite false F ef) Gen.CORNER_RADIUS_RATIO) = Ok r /\
    0 <= r /\ 2 * r <= n.
Proof.
  intros Hn Ha. pose proof Ha as (HF & Hef & Hval).
  unfold Gen.CORNER_RADIUS_RATIO.
  destruct (round_fmul false F 7306640035445893 ef (-56))
    as (k & M1 & Hk & HP & HM1 & HM1b & Hround); try lia.
  rewrite Hround. cbn [cond_Zopp]. eexists. split; [reflexivity|].
  assert (0 < 2 ^ k) as Hpk by (apply Z.pow_pos_nonneg; lia).
  pose proof (rhe_bounds (Zpos F * 7306640035445893) (2 ^ k) Hpk) as Hb.
  rewrite <- HM1 in Hb. clear HM1 Hround.
  assert (forall e, e < 0 -> 0 < 2 ^ (- e)) as Hpos
    by (intros e He; apply Z.pow_pos_nonneg; lia).
  unfold round_half_even.
  destruct Hk as [-> | ->].
  - (* the product has 105 bits *)
    change (2 ^ 52) with 4503599627370496 in *.
    change (2 ^ 53) with 9007199254740992 in *.
    assert (0 < M1 <= 2 * Zpos F) as HM by lia.
    replace (ef + -56 + 52) with (ef - 4) by lia.
    destruct (Z.leb_spec 0 (ef - 4)) as [He|He].
    + destruct Hval as [[? _]|[_ Hv]]; [lia|].
      replace ef with (ef - 4 + 4) in Hv by lia.
      rewrite Z.pow_add_r in Hv by lia. change (2 ^ 4) with 16 in Hv.
      assert (0 < 2 ^ (ef - 4)) as HT by (apply Z.pow_pos_nonneg; lia).
      split; nia.
    + pose proof (Hpos (ef - 4) He) as Hb0.
      pose proof (rhe_bounds M1 (2 ^ (- (ef - 4))) Hb0) as Hr.
      split; [apply rhe_ge; lia|].
      destruct Hval as [[Hle Hv]|[Hgt Hv]].
      * replace (- (ef - 4)) with (- ef + 4) in * by lia.
        rewrite Z.pow_add_r in * by lia. change (2 ^ 4) with 16 in *.
        assert (0 < 2 ^ (- ef)) as HT by (apply Z.pow_pos_nonneg; lia).
        nia.
      * assert (ef = 1 \/ ef = 2 \/ ef = 3) as [-> | [-> | ->]] by lia.
        -- change (2 ^ (- (1 - 4))) with 8 in *. change (2 ^ 1) with 2 in *. lia.
        -- change (2 ^ (- (2 - 4))) with 4 in *. change (2 ^ 2) with 4 in *. lia.
        -- change (2 ^ (- (3 - 4))) with 2 in *. change (2 ^ 3) with 8 in *. lia.
  - (* the product has 106 bits *)
    change (2 ^ 52) with 4503599627370496 in *.
    change (2 ^ 53) with 9007199254740992 in *.
    assert (0 < M1 <= Zpos F) as HM by lia.
    replace (ef + -56 + 53) with (ef - 3) by lia.
    destruct (Z.leb_spec 0 (ef - 3)) as [He|He].
    + destruct Hval as [[? _]|[_ Hv]]; [lia|].
      replace ef with (ef - 3 + 3) in Hv by lia.
      rewrite Z.pow_add_r in Hv by lia. change (2 ^ 3) with 8 in Hv.
      assert (0 < 2 ^ (ef - 3)) as HT by (apply Z.pow_pos_nonneg; lia).
      split; nia.
    + pose proof (Hpos (ef - 3) He) as Hb0.
      pose proof (rhe_bounds M1 (2 ^ (- (ef - 3))) Hb0) as Hr.
      split; [apply rhe_ge; lia|].
      destruct Hval as [[Hle Hv]|[Hgt Hv]].
      * replace (- (ef - 3)) with (- ef + 3) in * by lia.
        rewrite Z.pow_add_r in * by lia. change (2 ^ 3) with 8 in *.
        assert (0 < 2 ^ (- ef)) as HT by (apply Z.pow_pos_nonneg; lia).
        nia.
      * assert (ef = 1 \/ ef = 2) as [-> | ->] by lia.
        -- change (2 ^ (- (1 - 3))) with 4 in *. change (2 ^ 1) with 2 in *. lia.
        -- change (2 ^ (- (2 - 3))) with 2 in *. change (2 ^ 2) with 4 in *. lia.
Qed.

(** X7.  On a canvas whose sides are at least two pixels (and below the
    bound of an image side) the corner radius is at least one pixel and at
    most half of either side: the two corners on a side never overlap. *)
Theorem corner_radius_fits (w h : Z) :
  2 <= w < side_bound -> 2 <= h < side_bound ->
  exists radius,
    Gen.blue_rounded_rect w h
    = Ok (Pil.rounded_rectangle (Pil.new "RGBA" (w, h) (0, 0, 0, 0))
            (0, 0, w - 1, h - 1) radius (0, 132, 190, 255)) /\
    1 <= radius /\ 2 * radius <= w /\ 2 * radius <= h.
Proof.
  intros Hw Hh.
  assert (2 <= Z.min w h < int_bound) as [Hlo Hhi]
    by (unfold side_bound, int_bound in *; lia).
  assert (Z.min w h <= w /\ Z.min w h <= h) as [Hmw Hmh] by lia.
  unfold Gen.blue_rounded_rect, mul_float, to_float, int_to_float.
  destruct (Z.min w h) as [|m|m] eqn:Hmin; try lia.
  cbn [binary_normalize].
  pose proof (binary_round_int false m) as Hx.
  destruct (binary_round prec emax false m 0) as [s|s| |s F ef];
    try contradiction; [lia|].
  destruct Hx as [-> Ha]. cbn [bind].
  destruct (radius_finite (Zpos m) F ef Hlo Ha) as (r & -> & Hr0 & Hr).
  cbn [bind]. eexists. split; [reflexivity|]. lia.
Qed.

Lemma corner_radius_fits_witness :
  (2 <= 267 < side_bound /\ 2 <= 104 < side_bound) /\
  exists radius,
    Gen.blue_rounded_rect 267 104
    = Ok (Pil.rounded_rectangle (Pil.new "RGBA" (267, 104) (0, 0, 0, 0))
            (0, 0, 267 - 1, 104 - 1) radius (0, 132, 190, 255)) /\
    1 <= radius /\ 2 * radius <= 267 /\ 2 * radius <= 104.
Proof.
  assert (2 <= 267 < side_bound /\ 2 <= 104 < side_bound) as [Hw Hh]
    by (unfold side_bound; lia).
  split; [split; assumption|]. apply (corner_radius_fits 267 104 Hw Hh).
Defined.

(** ** What a run writes, and when *)

Section Outputs.

Variable DIR : string.
Variable read_text : string -> string.
Variable path_exists : string -> bool.
Variable parse : string -> Z -> Svg.SVG.
Variable textbbox : Z * Z -> string -> Pil.FreeTypeFont -> Z * Z * Z * Z.

Lemma comprehension_length {A B : Type} (f : A -> result B) (xs : list A) :
  forall ys, Gen.comprehension f xs = Ok ys -> List.length ys = List.length xs.
Proof.
  induction xs as [|x xs IH]; intros ys; cbn [Gen.comprehension].
  - intros [= <-]. reflexivity.
  - destruct (f x) as [y|]; cbn [bind]; [|discriminate].
    destruct (Gen.comprehension f xs) as [ys'|]; cbn [bind]; [|discriminate].
    intros [= <-]. cbn [List.length]. rewrite (IH ys' eq_refl). reflexivity.
Qed.

(** The icon step: all six icons first, then one save and one line. *)
Lemma write_ico_cases (svg : string) (tr : list Gen.Event) :
  match Gen.comprehension (Gen.render_icon parse svg) Gen.ICO_SIZES with
  | Ok [] => False
  | Ok (first :: others) =>
      Gen.write_ico DIR parse svg tr
      = ((tr ++ [Gen.Saved first (Gen.ICO_PATH DIR) "ICO" others false;
                 Gen.Printed ("Written " ++ Gen.ICO_PATH DIR)])%list, Ok tt)
  | Raise e => Gen.write_ico DIR parse svg tr = (tr, Raise e)
  end.
Proof.
  unfold Gen.write_ico, Gen.io_bind, Gen.eval.
  destruct (Gen.comprehension _ _) as [[|first others]|e] eqn:Hc.
  - apply comprehension_length in Hc. discriminate Hc.
  - unfold Gen.save, Gen.print, Gen.emit. rewrite <- app_assoc. reflexivity.
  - reflexivity.
Qed.

(** The PNG step: the 32 pixel file, then the 64 pixel file, each the icon
    rendered at four times the size and resized. *)
Lemma write_pngs_cases (svg : string) (tr : list Gen.Event) :
  match Gen.render_icon parse svg 128 with
  | Raise e => Gen.write_pngs DIR parse svg tr = (tr, Raise e)
  | Ok icon128 =>
      let tr1 :=
        (tr ++ [Gen.Saved (Pil.resize icon128 (32, 32) Pil.LANCZOS)
                  (Gen.in_dir DIR "bloom32.png") "PNG" [] true;
                Gen.Printed ("Written " ++ Gen.in_dir DIR "bloom32.png")])%list in
      match Gen.render_icon parse svg 256 with
      | Raise e => Gen.write_pngs DIR parse svg tr = (tr1, Raise e)
      | Ok icon256 =>
          Gen.write_pngs DIR parse svg tr
          = ((tr1 ++ [Gen.Saved (Pil.resize icon256 (64, 64) Pil.LANCZOS)
                        (Gen.in_dir DIR "bloom64.png") "PNG" [] true;
                      Gen.Printed ("Written " ++ Gen.in_dir DIR "bloom64.png")])%list,
             Ok tt)
      end
  end.
Proof.
  unfold Gen.write_pngs. cbn [Gen.for_each].
  unfold Gen.io_bind, Gen.eval, Gen.save, Gen.print, Gen.emit, Gen.io_ret.
  change (32 * 4) with 128. change (64 * 4) with 256.
  change ("bloom" ++ str_int 32 ++ ".png")%string with "bloom32.png"%string.
  change ("bloom" ++ str_int 64 ++ ".png")%string with "bloom64.png"%string.
  destruct (Gen.render_icon parse svg 128) as [icon128|e]; [|reflexivity].
  cbv zeta. rewrite <- !app_assoc. cbn [app].
  destruct (Gen.render_icon parse svg 256) as [icon256|e]; [|reflexivity].
  rewrite <- !app_assoc. reflexivity.
Qed.

(** The banner step: the font first, then the banner, one save and one line. *)
Lemma write_banner_cases (svg : string) (tr : list Gen.Event) :
  match Gen.first_existing path_exists Gen.BANNER_FONT_PATHS with
  | None =>
      Gen.write_banner DIR path_exists parse textbbox svg tr
      = (tr, Raise Gen.font_error)
  | Some font_path =>
      let font := {| Pil.font_file := font_path;
                     Pil.font_size := Gen.BANNER_FONT_SIZE |} in
      match Gen.render_banner parse textbbox svg font with
      | Raise e =>
          Gen.write_banner DIR path_exists parse textbbox svg tr = (tr, Raise e)
      | Ok banner =>
          Gen.write_banner DIR path_exists parse textbbox svg tr
          = ((tr ++ [Gen.Saved banner (Gen.in_dir DIR "banner.png") "PNG" [] true;
                     Gen.Printed ("Written " ++ Gen.in_dir DIR "banner.png")])%list,
             Ok tt)
      end
  end.
Proof.
  unfold Gen.write_banner.
  destruct (Gen.first_existing path_exists Gen.BANNER_FONT_PATHS) as [p|];
    [|reflexivity].
  cbv zeta. unfold Gen.io_bind, Gen.eval, Gen.save, Gen.print, Gen.emit.
  destruct (Gen.render_banner _ _ _ _) as [banner|e]; [|reflexivity].
  rewrite <- app_assoc. reflexivity.
Qed.

(** X8.  A run that ends normally has written, after what the trace held,
    exactly four files, each followed by its "Written" line: the icon bundle
    with the six icons, [bloom32.png] and [bloom64.png] (the 128 and 256
    pixel icons resized to 32 and 64 pixels), and [banner.png], drawn with
    the first font candidate that exists at size 72; the three PNG files are
    saved optimised. *)
Theorem run_outputs (tr tr' : list Gen.Event) :
  let svg := read_text (Gen.SVG_PATH DIR) in
  Gen.main DIR read_text path_exists parse textbbox tr = (tr', Ok tt) ->
  exists first others icon128 icon256 font_path banner,
    Gen.comprehension (Gen.render_icon parse svg) Gen.ICO_SIZES
    = Ok (first :: others) /\
    Gen.render_icon parse svg 128 = Ok icon128 /\
    Gen.render_icon parse svg 256 = Ok icon256 /\
    Gen.first_existing path_exists Gen.BANNER_FONT_PATHS = Some font_path /\
    Gen.render_banner parse textbbox svg
      {| Pil.font_file := font_path; Pil.font_size := 72 |} = Ok banner /\
    tr' = (tr ++
           [ Gen.Saved first (Gen.in_dir DIR "bloom.ico") "ICO" others false;
             Gen.Printed ("Written " ++ Gen.in_dir DIR "bloom.ico");
             Gen.Saved (Pil.resize icon128 (32, 32) Pil.LANCZOS)
               (Gen.in_dir DIR "bloom32.png") "PNG" [] true;
             Gen.Printed ("Written " ++ Gen.in_dir DIR "bloom32.png");
             Gen.Saved (Pil.resize icon256 (64, 64) Pil.LANCZOS)
               (Gen.in_dir DIR "bloom64.png") "PNG" [] true;
             Gen.Printed ("Written " ++ Gen.in_dir DIR "bloom64.png");
             Gen.Saved banner (Gen.in_dir DIR "banner.png") "PNG" [] true;
             Gen.Printed ("Written " ++ Gen.in_dir DIR "banner.png") ])%list.
Proof.
  intros svg. unfold Gen.main, Gen.io_bind. fold svg.
  pose proof (write_ico_cases svg tr) as H1.
  destruct (Gen.comprehension _ _) as [[|first others]|e]; [contradiction| |];
    rewrite H1; [|discriminate]. clear H1.
  set (tr1 := (tr ++ _)%list).
  pose proof (write_pngs_cases svg tr1) as H2.
  destruct (Gen.render_icon parse svg 128) as [icon128|e];
    [|rewrite H2; discriminate].
  cbv zeta in H2.
  destruct (Gen.render_icon parse svg 256) as [icon256|e];
    rewrite H2; [|discriminate]. clear H2.
  set (tr2 := ((tr1 ++ _) ++ _)%list).
  pose proof (write_banner_cases svg tr2) as H3.
  destruct (Gen.first_existing path_exists Gen.BANNER_FONT_PATHS) as [p|];
    [|rewrite H3; discriminate].
  cbv zeta in H3.
  destruct (Gen.render_banner _ _ _ _) as [banner|e] eqn:Hb;
    rewrite H3; [|discriminate].
  intros [= <-]. exists first, others, icon128, icon256, p, banner.
  repeat split; try reflexivity; [exact Hb|].
  subst tr2 tr1. rewrite <- !app_assoc. reflexivity.
Qed.

(** X9.  A run that stops for lack of a font has already written the icon
    bundle and the two PNG files, and nothing of the banner: the font is
    looked for only after them. *)
Theorem run_without_font (tr tr' : list Gen.Event) (msg : string) :
  Gen.main DIR read_text path_exists parse textbbox tr
  = (tr', Raise (RuntimeError msg)) ->
  Gen.first_existing path_exists Gen.BANNER_FONT_PATHS = None /\
  exists first others icon128 icon256,
    tr' = (tr ++
           [ Gen.Saved first (Gen.in_dir DIR "bloom.ico") "ICO" others false;
             Gen.Printed ("Written " ++ Gen.in_dir DIR "bloom.ico");
             Gen.Saved (Pil.resize icon128 (32, 32) Pil.LANCZOS)
               (Gen.in_dir DIR "bloom32.png") "PNG" [] true;
             Gen.Printed ("Written " ++ Gen.in_dir DIR "bloom32.png");
             Gen.Saved (Pil.resize icon256 (64, 64) Pil.LANCZOS)
               (Gen.in_dir DIR "bloom64.png") "PNG" [] true;
             Gen.Printed ("Written " ++ Gen.in_dir DIR "bloom64.png") ])%list.
Proof.
  unfold Gen.main, Gen.io_bind. set (svg := read_text (Gen.SVG_PATH DIR)).
  pose proof (write_ico_cases svg tr) as H1.
  pose proof (nre_comprehension parse svg Gen.ICO_SIZES) as N1.
  destruct (Gen.comprehension _ _) as [[|first others]|e]; [contradiction| |];
    rewrite H1; [|intros [= _ ->]; contradiction]. clear H1 N1.
  set (tr1 := (tr ++ _)%list).
  pose proof (write_pngs_cases svg tr1) as H2.
  pose proof (nre_render_icon parse svg 128) as N2.
  destruct (Gen.render_icon parse svg 128) as [icon128|e];
    [|rewrite H2; intros [= _ ->]; contradiction].
  cbv zeta in H2.
  pose proof (nre_render_icon parse svg 256) as N3.
  destruct (Gen.render_icon parse svg 256) as [icon256|e];
    rewrite H2; [|intros [= _ ->]; contradiction]. clear H2.
  set (tr2 := ((tr1 ++ _) ++ _)%list).
  pose proof (write_banner_cases svg tr2) as H3.
  destruct (Gen.first_existing path_exists Gen.BANNER_FONT_PATHS) as [p|].
  - cbv zeta in H3.
    pose proof (nre_render_banner parse textbbox svg
                  {| Pil.font_file := p; Pil.font_size := Gen.BANNER_FONT_SIZE |}) as N4.
    destruct (Gen.render_banner _ _ _ _) as [banner|e]; rewrite H3;
      [discriminate|intros [= _ ->]; contradiction].
  - rewrite H3. intros [= <- _]. split; [reflexivity|].
    exists first, others, icon128, icon256.
    subst tr2 tr1. rewrite <- !app_assoc. reflexivity.
Qed.

(** X10.  When one of the six icons cannot be rendered, the run stops with
    that failure before anything is written: the icons are all rendered
    before the bundle is saved. *)
Theorem run_icon_failure (tr : list Gen.Event) (e : exn) :
  Gen.comprehension (Gen.render_icon parse (read_text (Gen.SVG_PATH DIR)))
    Gen.ICO_SIZES = Raise e ->
  Gen.main DIR read_text path_exists parse textbbox tr = (tr, Raise e).
Proof.
  intros Hc. unfold Gen.main, Gen.io_bind.
  pose proof (write_ico_cases (read_text (Gen.SVG_PATH DIR)) tr) as H1.
  rewrite Hc in H1. rewrite H1. reflexivity.
Qed.

End Outputs.

(** ** The layout of the banner *)

(** X11.  In the banner the glyph keeps at least the padding above and
    below, and is centred vertically to within a pixel; the box of the text
    keeps at least the padding above and exactly the padding below; the text
    starts where the glyph ends; and to the right of the box of the text
    remain the padding minus the left bearing [bbox[0]] of the text. *)
Theorem banner_layout (parse : string -> Z -> Svg.SVG)
    (textbbox : Z * Z -> string -> Pil.FreeTypeFont -> Z * Z * Z * Z)
    (svg_content : string) (font : Pil.FreeTypeFont) (banner : Pil.Image) :
  let '(b0, b1, b2, b3) := textbbox (0, 0) "loom"%string font in
  let pad := Gen.BANNER_INNER_PAD in
  let logo := Gen.BANNER_LOGO_H in
  Gen.render_banner parse textbbox svg_content font = Ok banner ->
  exists bg glyph gy tx ty fill,
    banner = Pil.text (Pil.paste bg glyph (pad, gy) (Some glyph))
               (tx, ty) "loom" font fill /\
    let '(W, H) := Pil.size bg in
    Pil.size glyph = (logo, logo) /\
    pad <= gy /\ gy + logo <= H - pad /\
    gy <= H - logo - gy <= gy + 1 /\
    tx = pad + logo /\
    pad <= ty + b1 /\ ty + b3 = H - pad /\
    W - (tx + b2) = pad - b0.
Proof.
  unfold Gen.render_banner.
  destruct (textbbox (0, 0) "loom"%string font) as [[[b0 b1] b2] b3].
  cbv zeta.
  destruct (Gen.render_svg parse svg_content (Gen.BANNER_LOGO_H * 4)) as [hi|];
    cbn [bind]; [|discriminate].
  destruct (Gen.blue_rounded_rect _ _) as [hi_banner|]; cbn [bind];
    [|discriminate].
  intros [= <-].
  set (H := Z.max Gen.BANNER_LOGO_H (b3 - b1) + Gen.BANNER_INNER_PAD * 2).
  set (W := Gen.BANNER_LOGO_H + (b2 - b0) + Gen.BANNER_INNER_PAD * 2).
  exists (Pil.resize hi_banner (W, H) Pil.LANCZOS),
         (Pil.resize hi (Gen.BANNER_LOGO_H, Gen.BANNER_LOGO_H) Pil.LANCZOS),
         ((H - Gen.BANNER_LOGO_H) / 2),
         (Gen.BANNER_INNER_PAD + Gen.BANNER_LOGO_H),
         (H - Gen.BANNER_INNER_PAD - (b3 - b1) - b1),
         (255, 255, 255, 255).
  split; [reflexivity|].
  change (Pil.size (Pil.resize hi_banner (W, H) Pil.LANCZOS)) with (W, H).
  cbv beta iota.
  split; [reflexivity|].
  unfold Gen.BANNER_LOGO_H, Gen.BANNER_INNER_PAD in *.
  assert (104 <= H /\ b3 - b1 + 32 <= H) as [H1 H2] by (subst H; lia).
  pose proof (Z.div_mod (H - 72) 2 ltac:(lia)) as Hd.
  pose proof (Z.mod_pos_bound (H - 72) 2 ltac:(lia)) as Hm.
  subst W. repeat (split; [lia|]). lia.
Qed.

(** ** The choice of the font *)

(** X12.  The font chosen, when there is one, is a candidate that exists and
    before which no candidate exists; there is none only when no candidate
    exists. *)
Theorem first_existing_spec (path_exists : string -> bool) (paths : list string) :
  match Gen.first_existing path_exists paths with
  | Some p =>
      path_exists p = true /\
      exists before after,
        paths = (before ++ p :: after)%list /\
        Forall (fun q => path_exists q = false) before
  | None => Forall (fun q => path_exists q = false) paths
  end.
Proof.
  unfold Gen.first_existing.
  induction paths as [|q paths IH]; cbn [find]; [constructor|].
  destruct (path_exists q) eqn:Hq.
  - split; [exact Hq|]. exists [], paths. split; [reflexivity|constructor].
  - destruct (find path_exists paths) as [p|].
    + destruct IH as (Hp & before & after & -> & Hb). split; [exact Hp|].
      exists (q :: before), after. split; [reflexivity|].
      constructor; assumption.
    + constructor; assumption.
Qed.

(** ** Sizes beyond the floats *)

Lemma int_to_float_overflow (n : Z) :
  int_bound <= n -> int_to_float n = Raise OverflowError.
Proof.
  intros Hn. destruct (Z.eq_dec n int_bound) as [->|Hne];
    [vm_compute; reflexivity|].
  assert (int_bound < n) as Hlt by lia. clear Hn Hne.
  assert (0 < int_bound) as Hb0 by (vm_compute; reflexivity).
  unfold int_to_float. destruct n as [|m|m]; try lia.
  cbn [binary_normalize].
  pose proof (binary_round_int false m) as Hx.
  destruct (binary_round prec emax false m 0) as [s|s| |s F ef];
    try contradiction; [reflexivity|exfalso].
  destruct Hx as (_ & HF & Hef & Hval). unfold int_bound in Hlt.
  destruct Hval as [[Hle Hv]|[Hgt Hv]].
  - assert (0 < 2 ^ (- ef)) by (apply Z.pow_pos_nonneg; lia).
    assert (Zpos m < 2 ^ 53) by nia.
    assert (2 ^ 53 < 2 ^ 1024 - 2 ^ 970) by (vm_compute; reflexivity). lia.
  - assert (0 < 2 ^ ef <= 2 ^ 971) as [HT0 HT]
      by (split; [apply Z.pow_pos_nonneg; lia|apply Z.pow_le_mono_r; lia]).
    assert (Zpos F * 2 ^ ef <= (2 ^ 53 - 1) * 2 ^ ef) by nia.
    assert ((2 ^ 53 - 1) * 2 ^ ef <= (2 ^ 53 - 1) * 2 ^ 971)
      by (apply Z.mul_le_mono_nonneg_l; [vm_compute; discriminate|exact HT]).
    lia.
Qed.

(** X13.  For a size that no longer converts to a float (from
    2^1024 - 2^970 on) the icon fails with [OverflowError] whatever the
    document: the product for the corner radius, the first thing computed,
    cannot be formed, and neither can the one for the glyph size. *)
Theorem icon_float_overflow (parse : string -> Z -> Svg.SVG)
    (svg_content : string) (size : Z) :
  int_bound <= size ->
  Gen.blue_rounded_rect size size = Raise OverflowError /\
  bind (mul_float (Int size) (Float Gen.ICON_GLYPH_RATIO)) round
  = Raise OverflowError /\
  Gen.render_icon parse svg_content size = Raise OverflowError.
Proof.
  intros Hs. pose proof (int_to_float_overflow size Hs) as Hf.
  assert (Gen.blue_rounded_rect size size = Raise OverflowError) as Hbg.
  { unfold Gen.blue_rounded_rect, mul_float, to_float.
    rewrite Z.min_id, Hf. reflexivity. }
  split; [exact Hbg|]. split.
  - unfold mul_float, to_float. rewrite Hf. reflexivity.
  - unfold Gen.render_icon. rewrite Hbg. reflexivity.
Qed.

(** ** The further properties on the sample documents *)

Lemma render_svg_requests_witness :
  exists img scale reqs,
    Gen.render_svg Sample.parse "<svg/>" 8 = Ok img /\
    img = Pil.flushed (Pil.new "RGBA" (8, 8) (0, 0, 0, 0)) reqs /\
    map request_summary reqs
    = map (fun l => (Gen.shape_to_aggpath (fst l) scale, None, Some (snd l)))
          (layers (Svg.elements (Sample.parse "<svg/>" 8))) /\
    List.length reqs
    = List.length (layers (Svg.elements (Sample.parse "<svg/>" 8))).
Proof.
  destruct (Gen.render_svg Sample.parse "<svg/>" 8) as [img|e] eqn:Hr.
  - destruct (render_svg_requests Sample.parse "<svg/>" 8 img Hr)
      as (scale & reqs & H).
    exists img, scale, reqs. split; [reflexivity|exact H].
  - vm_compute in Hr. discriminate Hr.
Defined.

Lemma render_svg_zero_division_witness :
  Gen.render_svg Edge.no_width_parse "<svg/>" 0 = Raise ZeroDivisionError.
Proof.
  apply (render_svg_zero_division Edge.no_width_parse "<svg/>" 0).
  split; reflexivity.
Defined.

Lemma render_svg_unit_scale_witness :
  Gen.render_svg Edge.no_width_parse "<svg/>" 7
  = bind (Gen.draw_elements float_one
            (AggDraw.Draw (Pil.new "RGBA" (7, 7) (0, 0, 0, 0)))
            (Svg.elements (Edge.no_width_parse "<svg/>" 7)))
         (fun canvas => Ok (AggDraw.flush canvas)).
Proof.
  apply (render_svg_unit_scale Edge.no_width_parse "<svg/>" 7).
  - reflexivity.
  - unfold side_bound. lia.
Defined.

Lemma sample_run_ends_normally :
  exists tr',
    Gen.main Sample.DIR Sample.read_text Sample.only_last Sample.parse
      Sample.textbbox [] = (tr', Ok tt).
Proof.
  destruct (Gen.main Sample.DIR Sample.read_text Sample.only_last Sample.parse
              Sample.textbbox []) as [tr' [[]|e]] eqn:Hrun.
  - exists tr'. reflexivity.
  - apply (f_equal snd) in Hrun. vm_compute in Hrun. discriminate Hrun.
Defined.

Lemma run_outputs_witness :
  exists tr' first others icon128 icon256 banner,
    tr' = ([] ++
           [ Gen.Saved first (Gen.in_dir Sample.DIR "bloom.ico") "ICO" others false;
             Gen.Printed ("Written " ++ Gen.in_dir Sample.DIR "bloom.ico");
             Gen.Saved (Pil.resize icon128 (32, 32) Pil.LANCZOS)
               (Gen.in_dir Sample.DIR "bloom32.png") "PNG" [] true;
             Gen.Printed ("Written " ++ Gen.in_dir Sample.DIR "bloom32.png");
             Gen.Saved (Pil.resize icon256 (64, 64) Pil.LANCZOS)
               (Gen.in_dir Sample.DIR "bloom64.png") "PNG" [] true;
             Gen.Printed ("Written " ++ Gen.in_dir Sample.DIR "bloom64.png");
             Gen.Saved banner (Gen.in_dir Sample.DIR "banner.png") "PNG" [] true;
             Gen.Printed ("Written " ++ Gen.in_dir Sample.DIR "banner.png") ])%list.
Proof.
  destruct sample_run_ends_normally as [tr' Hrun].
  destruct (run_outputs Sample.DIR Sample.read_text Sample.only_last
              Sample.parse Sample.textbbox [] tr' Hrun)
    as (first & others & icon128 & icon256 & p & banner & _ & _ & _ & _ & _ & H).
  exists tr', first, others, icon128, icon256, banner. exact H.
Defined.

Lemma sample_run_without_font :
  exists tr',
    Gen.main Sample.DIR Sample.read_text Sample.no_font Sample.parse
      Sample.textbbox [] = (tr', Raise Gen.font_error).
Proof.
  destruct (Gen.main Sample.DIR Sample.read_text Sample.no_font Sample.parse
              Sample.textbbox []) as [tr' r] eqn:Hrun.
  exists tr'. f_equal.
  apply (f_equal snd) in Hrun. cbn [snd] in Hrun. rewrite <- Hrun.
  vm_compute. reflexivity.
Defined.

Lemma run_without_font_witness :
  Gen.first_existing Sample.no_font Gen.BANNER_FONT_PATHS = None /\
  exists tr' first others icon128 icon256,
    tr' = ([] ++
           [ Gen.Saved first (Gen.in_dir Sample.DIR "bloom.ico") "ICO" others false;
             Gen.Printed ("Written " ++ Gen.in_dir Sample.DIR "bloom.ico");
             Gen.Saved (Pil.resize icon128 (32, 32) Pil.LANCZOS)
               (Gen.in_dir Sample.DIR "bloom32.png") "PNG" [] true;
             Gen.Printed ("Written " ++ Gen.in_dir Sample.DIR "bloom32.png");
             Gen.Saved (Pil.resize icon256 (64, 64) Pil.LANCZOS)
               (Gen.in_dir Sample.DIR "bloom64.png") "PNG" [] true;
             Gen.Printed ("Written " ++ Gen.in_dir Sample.DIR "bloom64.png") ])%list.
Proof.
  destruct sample_run_without_font as [tr' Hrun].
  destruct (run_without_font Sample.DIR Sample.read_text Sample.no_font
              Sample.parse Sample.textbbox [] tr' _ Hrun)
    as (Hnone & first & others & icon128 & icon256 & H).
  split; [exact Hnone|]. exists tr', first, others, icon128, icon256. exact H.
Defined.

Lemma run_icon_failure_witness :
  Gen.main Sample.DIR Sample.read_text Sample.only_last Edge.nan_parse
    Sample.textbbox [] = ([], Raise ValueError).
Proof.
  apply (run_icon_failure Sample.DIR Sample.read_text Sample.only_last
           Edge.nan_parse Sample.textbbox [] ValueError).
  vm_compute. reflexivity.
Defined.

Lemma sample_banner_rendered :
  exists banner,
    Gen.render_banner Sample.parse Sample.textbbox "<svg/>"
      {| Pil.font_file := "/System/Library/Fonts/Helvetica.ttc";
         Pil.font_size := 72 |} = Ok banner.
Proof.
  destruct (Gen.render_banner Sample.parse Sample.textbbox "<svg/>" _)
    as [banner|e] eqn:Hb.
  - exists banner. reflexivity.
  - vm_compute in Hb. discriminate Hb.
Defined.

Lemma banner_layout_witness :
  exists bg glyph gy tx ty fill,
    let '(W, H) := Pil.size bg in
    Pil.size glyph = (72, 72) /\
    16 <= gy /\ gy + 72 <= H - 16 /\
    gy <= H - 72 - gy <= gy + 1 /\
    tx = 16 + 72 /\
    16 <= ty + 17 /\ ty + 70 = H - 16 /\
    W - (tx + 163) = 16 - 0 /\
    fill = (255, 255, 255, 255).
Proof.
  destruct sample_banner_rendered as [banner Hb].
  destruct (banner_layout Sample.parse Sample.textbbox "<svg/>" _ banner Hb)
    as (bg & glyph & gy & tx & ty & fill & Heq & H).
  exists bg, glyph, gy, tx, ty, fill.
  destruct (Pil.size bg) as [W H0].
  destruct H as (H1 & H2 & H3 & H4 & H5 & H6 & H7 & H8).
  repeat (split; [assumption|]).
  rewrite Heq in Hb. vm_compute in Hb. congruence.
Defined.

Lemma icon_float_overflow_witness :
  int_bound <= int_bound /\
  Gen.blue_rounded_rect int_bound int_bound = Raise OverflowError /\
  bind (mul_float (Int int_bound) (Float Gen.ICON_GLYPH_RATIO)) round
  = Raise OverflowError /\
  Gen.render_icon Sample.parse "<svg/>" int_bound = Raise OverflowError.
Proof.
  split; [apply Z.le_refl|].
  apply (icon_float_overflow Sample.parse "<svg/>" int_bound). apply Z.le_refl.
Defined.

(* ===================================================================== *)
(** * The container and the baseline, on concrete inputs *)
(* ===================================================================== *)




(** ** Where the baseline of the banner's text falls *)

(** With the bold sans-serif measures the text is drawn at [y = 20] in a
    banner 104 pixels high: the bottom of its box is on the padding line
    [104 - 16], its baseline one pixel above. *)
Lemma banner_baseline_not_flush :
  exists under ty,
    Gen.render_banner Sample.parse BoldSans.textbbox "<svg/>"
      {| Pil.font_file := "/usr/share/fonts/truetype/dejavu/DejaVuSans-Bold.ttf";
         Pil.font_size := 72 |}
    = Ok (Pil.text under (Gen.BANNER_INNER_PAD + Gen.BANNER_LOGO_H, ty) "loom"
            {| Pil.font_file := "/usr/share/fonts/truetype/dejavu/DejaVuSans-Bold.ttf";
               Pil.font_size := 72 |}
            (255, 255, 255, 255)) /\
    snd (Pil.size under) = 104 /\
    ty + 68 = 104 - Gen.BANNER_INNER_PAD /\
    text_baseline BoldSans.ascent
      (Gen.BANNER_INNER_PAD + Gen.BANNER_LOGO_H, ty)
    = 104 - Gen.BANNER_INNER_PAD - 1 /\
    text_baseline BoldSans.ascent
      (Gen.BANNER_INNER_PAD + Gen.BANNER_LOGO_H, ty)
    <> 104 - Gen.BANNER_INNER_PAD.
Proof.
  destruct sample_glyph_rasterised as [hi Hhi].
  pose proof (render_banner_eq Sample.parse BoldSans.textbbox "<svg/>"
                {| Pil.font_file := "/usr/share/fonts/truetype/dejavu/DejaVuSans-Bold.ttf";
                   Pil.font_size := 72 |} hi Hhi) as Heq.
  cbv beta iota zeta delta [BoldSans.textbbox] in Heq.
  destruct Heq as (bg & _ & Heq); [vm_compute; reflexivity|].
  do 2 eexists. split; [exact Heq|].
  repeat split; try reflexivity. discriminate.
Qed.
